(** * blademaster.Context: handler dispatch, key/value store, rendering

    A shallow embedding of [pkg/net/http/blademaster/context.go].

    Go strings are byte sequences and are modelled by [string] (a list of
    8-bit [ascii]); [int] and [int64] values are [Z] (no arithmetic is done
    on them here), the [int8] dispatch index is a [Z] with its wrap-around
    written out, maps are [gmap]s. *)

From Stdlib Require Import ZArith Ascii String DecimalString DecimalZ DecimalPos.
From stdpp Require Import base option list strings gmap fin_maps.

Local Open Scope string_scope.
Local Open Scope Z_scope.

(** ** The pieces of the Go standard library the file calls *)

Module strconv.

(** [strconv.FormatInt(i, 10)]: the decimal digits, with a leading minus
    sign for negative numbers. *)
Definition FormatInt (i : Z) : string :=
  NilZero.string_of_int (Z.to_int i).

End strconv.

Module strings.

(** [strings.HasPrefix(s, prefix)]. *)
Fixpoint HasPrefix (s prefix : string) {struct prefix} : bool :=
  match prefix, s with
  | EmptyString, _ => true
  | String p prefix', String a s' =>
      if Ascii.eqb p a then HasPrefix s' prefix' else false
  | String _ _, EmptyString => false
  end.

(** The scanning loop of [strings.Split(s, sep)] for a non-empty [sep]:
    [cur] holds the bytes of the current part, [skip] the bytes of a
    separator occurrence still to be passed over. *)
Fixpoint split_scan (sep : string) (skip : nat) (cur s : string)
  : list string :=
  match s with
  | EmptyString => [cur]
  | String a s' =>
      match skip with
      | S k => split_scan sep k cur s'
      | O =>
          if HasPrefix s sep
          then cur :: split_scan sep (String.length sep - 1) "" s'
          else split_scan sep 0 (cur +:+ String a "") s'
      end
  end.

(** [strings.Split(s, sep)], for the non-empty separators used by the
    callers ([","] and ["||"]): the parts of [s] between the
    non-overlapping occurrences of [sep], scanning from the left. The
    result always has at least one part. *)
Definition Split (s sep : string) : list string := split_scan sep 0 "" s.

(** [strings.Join(parts, sep)]. *)
Fixpoint Join (parts : list string) (sep : string) : string :=
  match parts with
  | [] => ""
  | [p] => p
  | p :: rest => p +:+ sep +:+ Join rest sep
  end.

(** [strings.Contains(s, sep)]. *)
Fixpoint Contains (s sep : string) : bool :=
  HasPrefix s sep ||
  match s with
  | EmptyString => false
  | String _ s' => Contains s' sep
  end.

(** The slice [s[n:]]; empty when [n] is past the end. *)
Fixpoint from (n : nat) (s : string) : string :=
  match n, s with
  | O, _ => s
  | S n', String _ s' => from n' s'
  | S _, EmptyString => ""
  end.

(** The two strings of [strings.Cut(s, sep)]: the text before the first
    occurrence of [sep] (all of [s] when there is none) and the text after
    it (empty when there is none). They say what the parts of [Split]
    are. *)
Fixpoint Cut_before (s sep : string) : string :=
  if HasPrefix s sep then ""
  else match s with
       | EmptyString => ""
       | String a s' => String a (Cut_before s' sep)
       end.

Fixpoint Cut_after (s sep : string) : string :=
  if HasPrefix s sep then from (String.length sep) s
  else match s with
       | EmptyString => ""
       | String _ s' => Cut_after s' sep
       end.

(** The UTF-8 encodings of the code points with the Unicode White_Space
    property ([unicode.IsSpace]): the six ASCII ones, U+0085, U+00A0,
    U+1680, U+2000..U+200A, U+2028, U+2029, U+202F, U+205F, U+3000. *)
Definition space_len (bs : list N) : nat :=
  match bs with
  | b :: rest =>
      if ((9 <=? b) && (b <=? 13) || (b =? 32))%N then 1%nat
      else match b, rest with
           | 194%N, c :: _ =>
               if ((c =? 133) || (c =? 160))%N then 2%nat else 0%nat
           | 225%N, 154%N :: 128%N :: _ => 3%nat
           | 226%N, 128%N :: c :: _ =>
               if ((128 <=? c) && (c <=? 138) || (c =? 168) || (c =? 169)
                   || (c =? 175))%N then 3%nat else 0%nat
           | 226%N, 129%N :: 159%N :: _ => 3%nat
           | 227%N, 128%N :: 128%N :: _ => 3%nat
           | _, _ => 0%nat
           end
  | [] => 0%nat
  end.

(** The same encodings read backwards from the end of the string, as
    [utf8.DecodeLastRuneInString] finds them. *)
Definition space_len_rev (rbs : list N) : nat :=
  match rbs with
  | b :: rest =>
      if ((9 <=? b) && (b <=? 13) || (b =? 32))%N then 1%nat
      else match rest with
           | 194%N :: _ =>
               if ((b =? 133) || (b =? 160))%N then 2%nat else 0%nat
           | 154%N :: 225%N :: _ => if (b =? 128)%N then 3%nat else 0%nat
           | 128%N :: 226%N :: _ =>
               if ((128 <=? b) && (b <=? 138) || (b =? 168) || (b =? 169)
                   || (b =? 175))%N then 3%nat else 0%nat
           | 129%N :: 226%N :: _ => if (b =? 159)%N then 3%nat else 0%nat
           | 128%N :: 227%N :: _ => if (b =? 128)%N then 3%nat else 0%nat
           | _ => 0%nat
           end
  | [] => 0%nat
  end.

(** Drop white-space code points from the front; [fuel] bounds the number
    of code points dropped and is the length of the input. *)
Fixpoint trim_with (len : list N -> nat) (fuel : nat) (bs : list N)
  : list N :=
  match fuel with
  | O => bs
  | S fuel' =>
      match len bs with
      | O => bs
      | n => trim_with len fuel' (drop n bs)
      end
  end.

Definition bytes_of (s : string) : list N :=
  N_of_ascii <$> list_ascii_of_string s.

Definition of_bytes (bs : list N) : string :=
  string_of_list_ascii (ascii_of_N <$> bs).

(** [strings.TrimSpace(s)]: [s] without leading and trailing white space,
    as defined by Unicode. *)
Definition TrimSpace (s : string) : string :=
  let bs := bytes_of s in
  let front := trim_with space_len (length bs) bs in
  let back := trim_with space_len_rev (length front) (reverse front) in
  of_bytes (reverse back).

End strings.

(** ** Data model *)

(** A value held in an [interface{}]: its dynamic type and its contents.
    A [float64] is carried as its IEEE-754 bit pattern; [VOther] stands for
    a value of any type the file never inspects. *)
Inductive GoVal :=
| VNil
| VString (s : string)
| VBool (b : bool)
| VInt (i : Z)
| VInt64 (i : Z)
| VUint (u : Z)
| VUint64 (u : Z)
| VFloat64 (bits : Z)
| VOther (type_name repr : string).

(** [ecode.Codes]: what the file reads of a business code. *)
Record Codes := mkCodes {
  Codes_Error : string;
  Code : Z;
  Message : string
}.

(** The [error] values the file meets. [ValidationErrors] is
    [validator.ValidationErrors], seen through its [Error()] text and through
    [Translate] with the configured translator (a map from field namespace
    to translated message). *)
Inductive error :=
| CodesError (bc : Codes)
| ValidationErrors (text : string) (translations : gmap string string)
| ErrorString (text : string)
| WithStack (e : error).

(** [err.Error()]. *)
Fixpoint Error_ (e : error) : string :=
  match e with
  | CodesError bc => Codes_Error bc
  | ValidationErrors text _ => text
  | ErrorString text => text
  | WithStack e' => Error_ e'
  end.

(** [*http.Request], as far as the file reads it. Header keys are stored in
    canonical form, which is the form of both keys the file looks up. *)
Record Request := mkRequest {
  Method : string;
  Header : gmap string (list string);
  Form : gmap string (list string)
}.

(** [Header.Get] and [url.Values.Get]: the first value of the key, or the
    empty string. *)
Definition Values_Get (vs : gmap string (list string)) (key : string)
  : string :=
  match vs !! key with
  | Some (v :: _) => v
  | _ => ""
  end.

(** [types.Any]. *)
Record Any := mkAny { TypeUrl : string; Value : string }.

(** A [proto.Message]: its registered name and what [proto.Marshal] makes
    of it. *)
Record ProtoMessage := mkProtoMessage {
  MessageName : string;
  Marshal : string + error
}.

(** The render strategies of package [render], as the struct literals the
    file builds. [render_MapJSON] holds the contents of the map at the time
    it is handed to [Render]. *)
Inductive render :=
| render_JSON (code : Z) (message : string) (data : GoVal)
| render_MapJSON (m : gmap string GoVal)
| render_XML (code : Z) (message : string) (data : GoVal)
| render_PB (code : Z) (message : string) (data : Any)
| render_Data (contentType : string) (data : list string)
| render_String (format : string) (data : list GoVal)
| render_Redirect (code : Z) (location : string) (request : Request).

(** The calls made on an [http.ResponseWriter], oldest first. The two
    methods of a render strategy are calls of their own: what they write is
    the business of package [render]. *)
Inductive WriterCall :=
| HeaderSet (key value : string)
| WriteHeader (code : Z)
| Write (p : string)
| WriteContentType (r : render)
| RenderTo (r : render).

Definition ResponseWriter := list WriterCall.

(** A route parameter, and the [Params] slice: its backing array and its
    length ([cap] is the length of the backing array). *)
Record Param := mkParam { Key : string; ParamValue : string }.

Record Params := mkParams {
  backing : list Param;
  len : nat
}.

Definition cap (ps : Params) : nat := length (backing ps).

(** The elements a reader of the slice sees. *)
Definition elems (ps : Params) : list Param := take (len ps) (backing ps).

(** A handler is user code; the model keeps the calls it makes on the
    context, in order. [Work] is any computation of its own. *)
Inductive Op :=
| CallNext
| CallAbort
| CallAbortWithStatus (code : Z)
| CallSet (key : string) (value : GoVal)
| CallStatus (code : Z)
| Work (tag : string).

Definition HandlerFunc := list Op.

(** [Context]. The embedded [context.Context] is [nil] or a live context
    with the request metadata it carries, if any; [Keys] is [nil] or an
    allocated map. [keysMutex] has no counterpart: the model is
    sequential. *)
Record Context := mkContext {
  Context_ : option (option (gmap string GoVal));
  Request_ : Request;
  Writer : ResponseWriter;
  index : Z;
  handlers : list HandlerFunc;
  Keys : option (gmap string GoVal);
  Error : option error;
  ErrorMsg : string;
  method : string;
  engine : nat;
  RoutePath : string;
  Params_ : Params
}.

Definition with_Writer (w : ResponseWriter) (c : Context) : Context :=
  mkContext (Context_ c) (Request_ c) w (index c) (handlers c) (Keys c)
            (Error c) (ErrorMsg c) (method c) (engine c) (RoutePath c)
            (Params_ c).

Definition with_index (i : Z) (c : Context) : Context :=
  mkContext (Context_ c) (Request_ c) (Writer c) i (handlers c) (Keys c)
            (Error c) (ErrorMsg c) (method c) (engine c) (RoutePath c)
            (Params_ c).

Definition with_Keys (k : option (gmap string GoVal)) (c : Context)
  : Context :=
  mkContext (Context_ c) (Request_ c) (Writer c) (index c) (handlers c) k
            (Error c) (ErrorMsg c) (method c) (engine c) (RoutePath c)
            (Params_ c).

Definition with_Error (e : option error) (c : Context) : Context :=
  mkContext (Context_ c) (Request_ c) (Writer c) (index c) (handlers c)
            (Keys c) e (ErrorMsg c) (method c) (engine c) (RoutePath c)
            (Params_ c).

Definition with_ErrorMsg (s : string) (c : Context) : Context :=
  mkContext (Context_ c) (Request_ c) (Writer c) (index c) (handlers c)
            (Keys c) (Error c) s (method c) (engine c) (RoutePath c)
            (Params_ c).

Definition with_handlers (hs : list HandlerFunc) (c : Context) : Context :=
  mkContext (Context_ c) (Request_ c) (Writer c) (index c) hs (Keys c)
            (Error c) (ErrorMsg c) (method c) (engine c) (RoutePath c)
            (Params_ c).

(** ** Machine integers *)

(** The value of a mathematical integer stored in an [int8]. *)
Definition int8 (z : Z) : Z := (z + 128) mod 256 - 128.

(** [const _abortIndex int8 = math.MaxInt8 / 2]. *)
Definition MaxInt8 : Z := 127.
Definition _abortIndex : Z := MaxInt8 / 2.

(** ** Context creation *)

Definition reset (c : Context) : Context :=
  mkContext None (Request_ c) (Writer c) (-1) [] None None "" ""
            (engine c) "" (mkParams (backing (Params_ c)) 0).

(** What a request leaves in the context for its handlers to read: every
    field [reset] assigns, the route parameters as the slice shows them. *)
Definition per_request (c : Context) :=
  (Context_ c, index c, handlers c, Keys c, Error c, ErrorMsg c, method c,
   RoutePath c, elems (Params_ c)).

(** ** Flow control *)

(** [c.Abort()]. *)
Definition Abort (c : Context) : Context := with_index _abortIndex c.

(** One call on [c.Writer]. *)
Definition call (wc : WriterCall) (c : Context) : Context :=
  with_Writer (Writer c ++ [wc])%list c.

(** [c.Status(code)]. *)
Definition Status (code : Z) (c : Context) : Context :=
  call (WriteHeader code) c.

(** [c.AbortWithStatus(code)]. *)
Definition AbortWithStatus (code : Z) (c : Context) : Context :=
  Abort (Status code c).

(** [c.IsAborted()]. *)
Definition IsAborted (c : Context) : bool := _abortIndex <=? index c.

(** ** Metadata management *)

(** [c.Set(key, value)]. *)
Definition Set_ (key : string) (value : GoVal) (c : Context) : Context :=
  let keys := match Keys c with
              | None => ∅
              | Some m => m
              end in
  with_Keys (Some (<[key := value]> keys)) c.

(** [c.Get(key)]: reading a nil map finds nothing. *)
Definition Get (key : string) (c : Context) : GoVal * bool :=
  match Keys c with
  | None => (VNil, false)
  | Some m =>
      match m !! key with
      | Some v => (v, true)
      | None => (VNil, false)
      end
  end.

(** The value stored under [key], if any. *)
Definition held (key : string) (c : Context) : option GoVal :=
  Keys c ≫= fun m => m !! key.

Definition is_nil (v : GoVal) : bool :=
  match v with VNil => true | _ => false end.

Definition GetString (key : string) (c : Context) : string :=
  let '(val, ok) := Get key c in
  if ok && negb (is_nil val)
  then match val with VString s => s | _ => "" end
  else "".

Definition GetBool (key : string) (c : Context) : bool :=
  let '(val, ok) := Get key c in
  if ok && negb (is_nil val)
  then match val with VBool b => b | _ => false end
  else false.

Definition GetInt (key : string) (c : Context) : Z :=
  let '(val, ok) := Get key c in
  if ok && negb (is_nil val)
  then match val with VInt i => i | _ => 0 end
  else 0.

Definition GetUint (key : string) (c : Context) : Z :=
  let '(val, ok) := Get key c in
  if ok && negb (is_nil val)
  then match val with VUint u => u | _ => 0 end
  else 0.

Definition GetInt64 (key : string) (c : Context) : Z :=
  let '(val, ok) := Get key c in
  if ok && negb (is_nil val)
  then match val with VInt64 i => i | _ => 0 end
  else 0.

Definition GetUint64 (key : string) (c : Context) : Z :=
  let '(val, ok) := Get key c in
  if ok && negb (is_nil val)
  then match val with VUint64 u => u | _ => 0 end
  else 0.

(** The zero value of [float64] is [+0], whose bit pattern is 0. *)
Definition GetFloat64 (key : string) (c : Context) : Z :=
  let '(val, ok) := Get key c in
  if ok && negb (is_nil val)
  then match val with VFloat64 f => f | _ => 0 end
  else 0.

(** ** Collaborators outside the file *)

(** [binding.Binding]: what [b.Bind(c.Request, obj)] returns. The decoded
    object is the caller's and is not tracked. *)
Definition Binding := Request -> option error.

(** The behaviour of the packages the file calls into. [Render_result] and
    [Write_result] are what [r.Render(w)] and [w.Write(p)] report, given the
    calls made on the writer so far; [range_order] is the order in which
    the Go runtime ranges over a map, which is some order of its entries. *)
Class Externals := {
  Cause : option error -> Codes;
  RequestErr : Codes;
  JSEscapeString : string -> string;
  Render_result : render -> ResponseWriter -> option error;
  Write_result : string -> ResponseWriter -> option error;
  binding_Default : string -> string -> Binding;
  metadata_RemoteIP : string;
  range_order : gmap string string -> list (string * string);
  range_order_perm : forall m, range_order m ≡ₚ map_to_list m
}.

(** Modelled from the spec: [metadata.String(c, key)] of package
    [net/metadata], which is not part of this file: the value "supplied by an
    out-of-band request-metadata store", the empty string when the store
    holds no string under the key. *)
Definition metadata_String (c : Context) (key : string) : string :=
  match Context_ c with
  | Some (Some md) =>
      match md !! key with
      | Some (VString s) => s
      | _ => ""
      end
  | _ => ""
  end.

(** A call either returns or panics; both leave a state behind. *)
Inductive Outcome (A : Type) :=
| Returned (a : A)
| Panicked (a : A).
Arguments Returned {A} a.
Arguments Panicked {A} a.

(** A [map[string]interface{}] value is [nil] or the address of a map in
    the heap. *)
Definition MapRef := option positive.
Abbreviation Heap := (gmap positive (gmap string GoVal)).

(** The calls that put bytes into the body. *)
Definition is_body_call (wc : WriterCall) : bool :=
  match wc with
  | Write _ | RenderTo _ => true
  | _ => false
  end.

Definition StatusOK : Z := 200.
Definition _openParen : string := "(".
Definition _closeParen : string := ")".

(** ** Response rendering *)

Definition bodyAllowedForStatus (status : Z) : bool :=
  if (100 <=? status) && (status <=? 199) then false
  else if status =? 204 then false
  else if status =? 304 then false
  else true.

(** [writeStatusCode(w, ecode)]. *)
Definition writeStatusCode (w : ResponseWriter) (ecode : Z)
  : ResponseWriter :=
  (w ++ [HeaderSet "kratos-status-code" (strconv.FormatInt ecode)])%list.

(** The call [writeStatusCode] makes. *)
Definition status_header (ecode : Z) : WriterCall :=
  HeaderSet "kratos-status-code" (strconv.FormatInt ecode).

Section Rendering.

Context {ext : Externals}.

(** [c.Render(code, r)]. The results of the two writes of the JSONP
    prefix are dropped, as in the source. *)
Definition Render (code : Z) (r : render) (c : Context) : Context :=
  let c := call (WriteContentType r) c in
  let c := if 0 <? code then Status code c else c in
  if negb (bodyAllowedForStatus code) then c
  else
    let params := Form (Request_ c) in
    let cb := JSEscapeString (Values_Get params "callback") in
    let jsonp := negb (String.eqb cb "") in
    let c := if jsonp
             then call (Write _openParen) (call (Write cb) c)
             else c in
    match Render_result r (Writer c) with
    | Some err => with_Error (Some err) (call (RenderTo r) c)
    | None =>
        let c := call (RenderTo r) c in
        if jsonp then
          match Write_result _closeParen (Writer c) with
          | Some err =>
              with_Error (Some (WithStack err)) (call (Write _closeParen) c)
          | None => call (Write _closeParen) c
          end
        else c
    end.

(** [c.JSON(data, err)]; [now] is what [time.Now().Unix()] reads. *)
Definition JSON (data : GoVal) (err : option error) (now : Z)
           (c : Context) : Context :=
  let code := StatusOK in
  let c := with_Error err c in
  let bcode := Cause err in
  let c := with_Writer (writeStatusCode (Writer c) (Code bcode)) c in
  let cc := strings.Split (Message bcode) "||" in
  if (1 <? length cc)%nat then
    let out : gmap string GoVal := ∅ in
    let out := <["ret" := VInt (Code bcode)]> out in
    let out := <["message" := VString (nth 1 cc "")]> out in
    let out := <["code" := VString (nth 0 cc "")]> out in
    let out := <["now" := VInt64 now]> out in
    let out := <["data" := data]> out in
    Render code (render_MapJSON out) c
  else
    Render code (render_JSON (Code bcode) (Message bcode) data) c.

(** [c.JSONMap(data, err)]. Storing into a nil map panics; an address
    with no map behind it does not arise in Go and is treated the same. *)
Definition JSONMap (data : MapRef) (err : option error)
           (s : Context * Heap) : Outcome (Context * Heap) :=
  let '(c, h) := s in
  let code := StatusOK in
  let c := with_Error err c in
  let bcode := Cause err in
  let c := with_Writer (writeStatusCode (Writer c) (Code bcode)) c in
  match data ≫= (fun l => (fun m => (l, m)) <$> h !! l) with
  | None => Panicked (c, h)
  | Some (l, m) =>
      let m := <["code" := VInt (Code bcode)]> m in
      let m := match m !! "message" with
               | Some _ => m
               | None => <["message" := VString (Message bcode)]> m
               end in
      Returned (Render code (render_MapJSON m) c, <[l := m]> h)
  end.

(** [c.XML(data, err)]. *)
Definition XML (data : GoVal) (err : option error) (c : Context)
  : Context :=
  let code := StatusOK in
  let c := with_Error err c in
  let bcode := Cause err in
  let c := with_Writer (writeStatusCode (Writer c) (Code bcode)) c in
  Render code (render_XML (Code bcode) (Message bcode) data) c.

(** [c.Protobuf(data, err)]. *)
Definition Protobuf (data : option ProtoMessage) (err : option error)
           (c : Context) : Context :=
  let code := StatusOK in
  let c := with_Error err c in
  let bcode := Cause err in
  let any := mkAny "" "" in
  let marshalled :=
    match data with
    | Some msg =>
        match Marshal msg with
        | inr e => inr e
        | inl bytes =>
            inl (mkAny ("type.googleapis.com/" +:+ MessageName msg) bytes)
        end
    | None => inl any
    end in
  match marshalled with
  | inr e => with_Error (Some (WithStack e)) c
  | inl any =>
      let c := with_Writer (writeStatusCode (Writer c) (Code bcode)) c in
      Render code (render_PB (Code bcode) (Message bcode) any) c
  end.

(** [c.Bytes(code, contentType, data...)]. *)
Definition Bytes (code : Z) (contentType : string) (data : list string)
           (c : Context) : Context :=
  Render code (render_Data contentType data) c.

(** [c.String(code, format, values...)]. *)
Definition String_ (code : Z) (format : string) (values : list GoVal)
           (c : Context) : Context :=
  Render code (render_String format values) c.

(** [c.Redirect(code, location)]. *)
Definition Redirect (code : Z) (location : string) (c : Context)
  : Context :=
  Render (-1) (render_Redirect code location (Request_ c)) c.

(** ** Binding *)

(** [c.mustBindWith(obj, b)]. *)
Definition mustBindWith (b : Binding) (c : Context)
  : Context * option error :=
  match b (Request_ c) with
  | Some err =>
      let c := with_Error (Some (CodesError RequestErr)) c in
      let c := with_ErrorMsg (Error_ err) c in
      let message :=
        match err with
        | ValidationErrors _ errs =>
            foldl (fun message v => message +:+ (v +:+ ";")) ""
                  (snd <$> range_order errs)
        | _ => Error_ err
        end in
      let c := Render StatusOK
                      (render_JSON (Code RequestErr) message VNil) c in
      (Abort c, Some err)
  | None => (c, None)
  end.

(** [c.BindWith(obj, b)]. *)
Definition BindWith (b : Binding) (c : Context) : Context * option error :=
  mustBindWith b c.

(** [c.Bind(obj)]. *)
Definition Bind (c : Context) : Context * option error :=
  let b := binding_Default (Method (Request_ c))
                           (Values_Get (Header (Request_ c)) "Content-Type") in
  mustBindWith b c.

(** ** Remote address *)

(** [c.RemoteIP()]. *)
Definition RemoteIP (c : Context) : string :=
  let remoteIP := metadata_String c metadata_RemoteIP in
  if negb (String.eqb remoteIP "") then remoteIP
  else
    let remoteIP := Values_Get (Header (Request_ c)) "X-Forwarded-For" in
    let remoteIP :=
      strings.TrimSpace (nth 0 (strings.Split remoteIP ",") "") in
    if String.eqb remoteIP ""
    then strings.TrimSpace (Values_Get (Header (Request_ c)) "X-Real-Ip")
    else remoteIP.

End Rendering.

(** ** The dispatcher as a machine

    Handlers call back into [Next], so the calls in progress are kept on an
    explicit stack. [KBody rest] is a handler with the calls [rest] still to
    make. [KNext] is the point of [Next] where [c.index++] is about to run
    and the loop test follows: the entry of [Next], and also the place a
    handler called from the loop returns to. *)

Inductive Frame :=
| KNext
| KBody (rest : HandlerFunc).

(** What an observer of a dispatch sees: the loop of [Next] calling
    [c.handlers[i]], and a handler doing work of its own. *)
Inductive Event :=
| Enter (i : Z)
| Mark (tag : string).

Record Machine := mkMachine {
  ctx : Context;
  stack : list Frame;
  trace : list Event;
  panicked : bool
}.

(** [c.handlers[c.index]]: Go panics when the index is out of range. *)
Definition handler_at (c : Context) : option HandlerFunc :=
  if 0 <=? index c then handlers c !! Z.to_nat (index c) else None.

(** One call made by a handler. *)
Definition exec_op (op : Op) (rest : HandlerFunc) (m : Machine) (k : list Frame)
  : Machine :=
  let c := ctx m in
  match op with
  | CallNext => mkMachine c (KNext :: KBody rest :: k) (trace m) false
  | CallAbort => mkMachine (Abort c) (KBody rest :: k) (trace m) false
  | CallAbortWithStatus code =>
      mkMachine (AbortWithStatus code c) (KBody rest :: k) (trace m) false
  | CallSet key value =>
      mkMachine (Set_ key value c) (KBody rest :: k) (trace m) false
  | CallStatus code =>
      mkMachine (Status code c) (KBody rest :: k) (trace m) false
  | Work tag =>
      mkMachine c (KBody rest :: k) (trace m ++ [Mark tag])%list false
  end.

(** One step. At [KNext]: [c.index++], then the test
    [c.index < int8(len(c.handlers))]; inside the loop the handler is
    called and [KNext] stays below it for its return. A panic unwinds the
    whole stack (nothing in the file recovers). *)
Definition step (m : Machine) : Machine :=
  match stack m with
  | [] => m
  | KNext :: k =>
      let c := with_index (int8 (index (ctx m) + 1)) (ctx m) in
      if index c <? int8 (Z.of_nat (length (handlers c))) then
        match handler_at c with
        | Some h =>
            mkMachine c (KBody h :: KNext :: k)
                      (trace m ++ [Enter (index c)])%list false
        | None => mkMachine c [] (trace m) true
        end
      else mkMachine c k (trace m) false
  | KBody [] :: k => mkMachine (ctx m) k (trace m) false
  | KBody (op :: rest) :: k => exec_op op rest m k
  end.

Fixpoint run (fuel : nat) (m : Machine) : Machine :=
  match fuel with
  | O => m
  | S fuel' => run fuel' (step m)
  end.

Definition halted (m : Machine) : bool :=
  match stack m with [] => true | _ => false end.

(** [c.Next()] called from outside any handler, with an empty trace. *)
Definition Next (fuel : nat) (c : Context) : Machine :=
  run fuel (mkMachine c [KNext] [] false).

(** The handlers the loop called, in order. *)
Fixpoint entered (t : list Event) : list Z :=
  match t with
  | [] => []
  | Enter i :: t' => i :: entered t'
  | Mark _ :: t' => entered t'
  end.

(** The [c.index++] still to come in the calls in progress. *)
Definition is_next (op : Op) : bool :=
  match op with CallNext => true | _ => false end.

Definition aborts (op : Op) : bool :=
  match op with CallAbort | CallAbortWithStatus _ => true | _ => false end.

Fixpoint calls_next (h : HandlerFunc) : nat :=
  match h with
  | [] => 0
  | op :: h' => ((if is_next op then 1 else 0) + calls_next h')%nat
  end.

Fixpoint pending (k : list Frame) : nat :=
  match k with
  | [] => 0
  | KNext :: k' => S (pending k')
  | KBody rest :: k' => (calls_next rest + pending k')%nat
  end.

(** The work the calls in progress still have to do. *)
Fixpoint op_marks (h : HandlerFunc) : list Event :=
  match h with
  | [] => []
  | Work tag :: h' => Mark tag :: op_marks h'
  | _ :: h' => op_marks h'
  end.

Fixpoint marks (k : list Frame) : list Event :=
  match k with
  | [] => []
  | KNext :: k' => marks k'
  | KBody rest :: k' => (op_marks rest ++ marks k')%list
  end.

(** The steps an aborted machine takes to unwind. *)
Fixpoint cost (k : list Frame) : nat :=
  match k with
  | [] => 0
  | KNext :: k' => S (cost k')
  | KBody rest :: k' => (S (length rest + calls_next rest) + cost k')%nat
  end.

(** A context as the engine hands it to the first [Next]: taken from the
    pool, reset, and given the handlers of the matched route. *)
Definition idle : Context :=
  mkContext None (mkRequest "GET" ∅ ∅) [] (-1) [] None None "" "" 0 ""
            (mkParams [] 0).

Definition chain (hs : list HandlerFunc) : Context := with_handlers hs idle.

(** The state of a dispatch once [Abort] has run: the index is at or past
    the sentinel, and the [c.index++] still to come do not carry it past
    the largest [int8]. *)
Definition unwinding (m : Machine) : Prop :=
  panicked m = false
  /\ int8 (Z.of_nat (length (handlers (ctx m)))) <= 64
  /\ _abortIndex <= index (ctx m)
  /\ index (ctx m) + Z.of_nat (pending (stack m)) <= MaxInt8.

(** What a dispatch shows when the handlers [hs], the first of them at
    position [a], are called one after the other and none calls [Next]. *)
Fixpoint flat_from (a : nat) (hs : list HandlerFunc) : list Event :=
  match hs with
  | [] => []
  | h :: hs' => (Enter (Z.of_nat a) :: op_marks h ++ flat_from (S a) hs')%list
  end.

(** The number of handlers the loop of [Next] can reach: the length of the
    list as the [int8] conversion leaves it, when that is positive. *)
Definition reach (hs : list HandlerFunc) : nat :=
  Z.to_nat (int8 (Z.of_nat (length hs))).

(** The calls of [Next] in all of [hs], and the steps the machine takes to
    call them all and run them to their end. *)
Fixpoint calls_sum (hs : list HandlerFunc) : nat :=
  match hs with
  | [] => 0
  | h :: hs' => (calls_next h + calls_sum hs')%nat
  end.

Fixpoint todo (hs : list HandlerFunc) : nat :=
  match hs with
  | [] => 0
  | h :: hs' => (2 + length h + calls_next h + todo hs')%nat
  end.

(** No call in progress will abort. *)
Fixpoint frames_clean (k : list Frame) : bool :=
  match k with
  | [] => true
  | KNext :: k' => frames_clean k'
  | KBody rest :: k' => negb (existsb aborts rest) && frames_clean k'
  end.

(** The state of a dispatch in which nobody aborts, after the first [e]
    handlers of [hs] have been called: either the index is still at the
    last handler called, or a loop has run off the end of the list and the
    index only grows, without leaving the range of [int8]. *)
Definition climbing (hs : list HandlerFunc) (e : nat) (m : Machine) : Prop :=
  handlers (ctx m) = hs
  /\ panicked m = false
  /\ (e <= length hs)%nat
  /\ entered (trace m) = Z.of_nat <$> seq 0 e
  /\ frames_clean (stack m) = true
  /\ ((index (ctx m) = Z.of_nat e - 1
       /\ last (stack m) = Some KNext
       /\ (length hs + pending (stack m) + calls_sum (drop e hs) <= 128)%nat)
      \/ (e = length hs
          /\ Z.of_nat (length hs) <= index (ctx m)
          /\ index (ctx m) + Z.of_nat (pending (stack m)) <= MaxInt8)).

(** The message [mustBindWith] builds from translated field errors: each
    followed by a semicolon. *)
Fixpoint semicolons (vs : list string) : string :=
  match vs with
  | [] => ""
  | v :: vs' => v +:+ ";" +:+ semicolons vs'
  end.

(** ** Collaborators to run the model with

    One choice of collaborators, for running the model on concrete input:
    no error resolves to code 0, an error that is a business code to
    itself, any other error to code -500; the bad-request code is -400; the
    callback name needs no escaping; the writer and the encoders never
    fail; maps are ranged over in the order [map_to_list] gives. *)
#[local] Instance plain_externals : Externals := {|
  Cause e := match e with
             | None => mkCodes "0" 0 "0"
             | Some (CodesError bc) | Some (WithStack (CodesError bc)) => bc
             | Some _ => mkCodes "-500" (-500) "-500"
             end;
  RequestErr := mkCodes "-400" (-400) "-400";
  JSEscapeString s := s;
  Render_result _ _ := None;
  Write_result _ _ := None;
  binding_Default _ _ := fun _ => None;
  metadata_RemoteIP := "remote_ip";
  range_order m := map_to_list m;
  range_order_perm m := Permutation_refl (map_to_list m)
|}.

(** * Properties *)

(** ** The model on small inputs *)

Example FormatInt_neg : strconv.FormatInt (-400) = "-400".
Proof. reflexivity. Qed.

Example FormatInt_zero : strconv.FormatInt 0 = "0".
Proof. reflexivity. Qed.

Example Split_two : strings.Split "4001||Invalid input" "||" = ["4001"; "Invalid input"].
Proof. reflexivity. Qed.

Example Split_three : strings.Split "a||b||c" "||" = ["a"; "b"; "c"].
Proof. reflexivity. Qed.

Example Split_pipes : strings.Split "a|||b" "||" = ["a"; "|b"].
Proof. reflexivity. Qed.

Example Split_trailing : strings.Split "a||" "||" = ["a"; ""].
Proof. reflexivity. Qed.

Example Split_empty : strings.Split "" "," = [""].
Proof. reflexivity. Qed.

Example TrimSpace_ascii : strings.TrimSpace "  1.2.3.4 	" = "1.2.3.4".
Proof. vm_compute. reflexivity. Qed.

Example abortIndex_value : _abortIndex = 63.
Proof. reflexivity. Qed.

Example Next_two :
  let c := chain [[Work "a"; CallNext; Work "c"]; [Work "b"]] in
  trace (Next 20 c) = [Enter 0; Mark "a"; Enter 1; Mark "b"; Mark "c"]
  /\ halted (Next 20 c) = true /\ index (ctx (Next 20 c)) = 3.
Proof. vm_compute. repeat split. Qed.

(** ** Strings *)

Lemma append_cons (a : ascii) (x y : string) :
  String a x +:+ y = String a (x +:+ y).
Proof. reflexivity. Qed.

Lemma append_nil_r (s : string) : s +:+ "" = s.
Proof. induction s as [|a s IH]; [done|]. by rewrite append_cons, IH. Qed.

Lemma append_assoc (x y z : string) : (x +:+ y) +:+ z = x +:+ (y +:+ z).
Proof. induction x as [|a x IH]; [done|]. by rewrite !append_cons, IH. Qed.

Lemma HasPrefix_app (s sep : string) :
  strings.HasPrefix s sep = true ->
  s = sep +:+ strings.from (String.length sep) s.
Proof.
  revert s. induction sep as [|p sep IH]; intros s H; [done|].
  destruct s as [|a s]; simpl in H; [done|].
  destruct (Ascii.eqb_spec p a) as [->|]; [|done].
  rewrite append_cons. simpl. f_equal. by apply IH.
Qed.

Lemma split_scan_nonempty (sep : string) (s : string) :
  forall skip cur, strings.split_scan sep skip cur s <> [].
Proof.
  induction s as [|a s IH]; intros skip cur; simpl; [done|].
  destruct skip; [|apply IH].
  destruct (strings.HasPrefix (String a s) sep); [done|apply IH].
Qed.

(** Passing over the rest of a separator is slicing it off. *)
Lemma split_scan_skip (sep : string) (s : string) :
  forall skip cur,
  strings.split_scan sep skip cur s
  = strings.split_scan sep 0 cur (strings.from skip s).
Proof.
  induction s as [|a s IH]; intros skip cur; [by destruct skip|].
  destruct skip as [|k]; [done|]. simpl. apply IH.
Qed.

Lemma split_scan_cut (sep : string) (s : string) :
  sep <> "" ->
  forall cur,
  strings.split_scan sep 0 cur s
  = if strings.Contains s sep
    then (cur +:+ strings.Cut_before s sep)
           :: strings.split_scan sep 0 "" (strings.Cut_after s sep)
    else [cur +:+ s].
Proof.
  intros Hsep. induction s as [|a s IH]; intros cur.
  - destruct sep; [done|]. simpl. by rewrite append_nil_r.
  - simpl. destruct (strings.HasPrefix (String a s) sep) eqn:Hp; simpl.
    + rewrite append_nil_r, split_scan_skip. f_equal. f_equal.
      destruct sep as [|p sep]; [done|]. simpl. by rewrite Nat.sub_0_r.
    + rewrite IH. destruct (strings.Contains s sep).
      * by rewrite append_assoc.
      * by rewrite append_assoc.
Qed.

(** [Split] cuts at the first separator and goes on with the rest. *)
Lemma Split_cut (s sep : string) :
  sep <> "" ->
  strings.Split s sep
  = if strings.Contains s sep
    then strings.Cut_before s sep
           :: strings.Split (strings.Cut_after s sep) sep
    else [s].
Proof. intros Hsep. unfold strings.Split. by rewrite split_scan_cut. Qed.

Lemma Split_length (s sep : string) :
  sep <> "" ->
  (1 <? length (strings.Split s sep))%nat = strings.Contains s sep.
Proof.
  intros Hsep. rewrite Split_cut by done.
  destruct (strings.Contains s sep); [|done].
  unfold strings.Split. simpl.
  destruct (strings.split_scan _ _ _ _) eqn:E; [|done].
  by apply split_scan_nonempty in E.
Qed.

(** A string that contains the separator is its two cuts around it. *)
Lemma Cut_join (s sep : string) :
  strings.Contains s sep = true ->
  s = strings.Cut_before s sep +:+ sep +:+ strings.Cut_after s sep.
Proof.
  induction s as [|a s IH]; simpl; intros H.
  - rewrite orb_false_r in H. rewrite H. simpl. by apply HasPrefix_app.
  - destruct (strings.HasPrefix (String a s) sep) eqn:Hp.
    + simpl. by apply HasPrefix_app.
    + simpl in H. rewrite append_cons. f_equal. by apply IH.
Qed.

Lemma HasPrefix_Cut_before (s sep : string) :
  forall t, strings.HasPrefix (strings.Cut_before s t) sep = true ->
            strings.HasPrefix s sep = true.
Proof.
  revert s. induction sep as [|p sep IH]; intros s t H; [by destruct s|].
  destruct s as [|a s]; simpl in H.
  - by destruct (strings.HasPrefix "" t).
  - destruct (strings.HasPrefix (String a s) t); [done|].
    simpl in *. destruct (Ascii.eqb p a); [|done]. by apply (IH s t).
Qed.

(** The text before the first separator contains none. *)
Lemma Cut_before_clean (s sep : string) :
  sep <> "" -> strings.Contains (strings.Cut_before s sep) sep = false.
Proof.
  intros Hsep. induction s as [|a s IH]; simpl.
  - destruct sep; [done|]. reflexivity.
  - destruct (strings.HasPrefix (String a s) sep) eqn:Hp.
    + destruct sep; [done|]. reflexivity.
    + change (strings.Contains (String a ?x) sep)
        with (strings.HasPrefix (String a x) sep || strings.Contains x sep).
      rewrite IH, orb_false_r.
      destruct (strings.HasPrefix (String a (strings.Cut_before s sep)) sep)
        eqn:Hq; [|done].
      rewrite <- Hp. symmetry.
      apply (HasPrefix_Cut_before (String a s) sep sep).
      simpl. by rewrite Hp.
Qed.

Lemma Cut_before_all (s sep : string) :
  strings.Contains s sep = false -> strings.Cut_before s sep = s.
Proof.
  induction s as [|a s IH]; simpl; intros H.
  - by destruct (strings.HasPrefix "" sep).
  - apply orb_false_iff in H as [-> H]. by rewrite IH.
Qed.

(** The first part of [Split] is the text before the first separator. *)
Lemma Split_head (s sep : string) :
  sep <> "" -> nth 0 (strings.Split s sep) "" = strings.Cut_before s sep.
Proof.
  intros Hsep. rewrite Split_cut by done.
  destruct (strings.Contains s sep) eqn:E; [done|].
  simpl. by rewrite Cut_before_all.
Qed.

(** ** Machine integers and running *)

Lemma int8_small (z : Z) : -128 <= z <= 127 -> int8 z = z.
Proof.
  intros Hz. unfold int8. rewrite Z.mod_small by lia. lia.
Qed.

Lemma int8_range (z : Z) : -128 <= int8 z <= 127.
Proof.
  unfold int8. pose proof (Z.mod_pos_bound (z + 128) 256). lia.
Qed.

Lemma run_add (n1 n2 : nat) (m : Machine) :
  run (n1 + n2) m = run n2 (run n1 m).
Proof.
  revert m. induction n1 as [|n1 IH]; intros m; simpl; [done|]. apply IH.
Qed.

Lemma run_halted (n : nat) (m : Machine) : stack m = [] -> run n m = m.
Proof.
  intros Hm. induction n as [|n IH]; simpl; [done|].
  unfold step. rewrite Hm. exact IH.
Qed.

Lemma run_ge (n fuel : nat) (m : Machine) :
  (n <= fuel)%nat -> stack (run n m) = [] -> run fuel m = run n m.
Proof.
  intros Hle Hm. replace fuel with (n + (fuel - n))%nat by lia.
  rewrite run_add. by apply run_halted.
Qed.

Lemma entered_app (t1 t2 : list Event) :
  entered (t1 ++ t2) = (entered t1 ++ entered t2)%list.
Proof.
  induction t1 as [|[i|tag] t1 IH]; simpl; [done| |done].
  by rewrite IH.
Qed.

Lemma entered_op_marks (h : HandlerFunc) : entered (op_marks h) = [].
Proof. induction h as [|[] h IH]; simpl; done. Qed.

Lemma entered_marks (k : list Frame) : entered (marks k) = [].
Proof.
  induction k as [|[|rest] k IH]; simpl; [done|done|].
  by rewrite entered_app, entered_op_marks, IH.
Qed.

Lemma calls_next_cons (op : Op) (h : HandlerFunc) :
  calls_next (op :: h)
  = ((if is_next op then 1 else 0) + calls_next h)%nat.
Proof. reflexivity. Qed.

(** ** After [Abort]: the machine only unwinds *)

Lemma step_unwinding (m : Machine) :
  unwinding m -> stack m <> [] ->
  unwinding (step m)
  /\ S (cost (stack (step m))) = cost (stack m)
  /\ (trace (step m) ++ marks (stack (step m)) = trace m ++ marks (stack m))%list.
Proof.
  unfold unwinding, _abortIndex, MaxInt8.
  change (127 / 2) with 63.
  destruct m as [c k t p]; simpl. intros (-> & Hlen & Hlo & Hhi) Hk.
  destruct k as [|[|[|op rest]] k]; [done| | |].
  - (* c.index++ and the loop test, which fails *)
    unfold step; simpl in *.
    rewrite int8_small by lia.
    destruct (Z.ltb_spec (index c + 1) (int8 (Z.of_nat (length (handlers c)))))
      as [Hlt|Hge]; [lia|].
    simpl. repeat split; try done; lia.
  - (* the handler returns *)
    unfold step; simpl in *. repeat split; try done; lia.
  - (* the handler makes its next call *)
    unfold step, exec_op.
    destruct op; simpl in *; unfold _abortIndex, MaxInt8;
      change (127 / 2) with 63; repeat split; try done; try lia.
    by rewrite <- app_assoc.
Qed.

Lemma unwind (n : nat) (m : Machine) :
  cost (stack m) = n -> unwinding m ->
  stack (run n m) = []
  /\ panicked (run n m) = false
  /\ trace (run n m) = (trace m ++ marks (stack m))%list
  /\ handlers (ctx (run n m)) = handlers (ctx m).
Proof.
  revert m. induction n as [|n IH]; intros m Hn Hm.
  - destruct Hm as (Hp & _).
    destruct m as [c [|[|rest] k] t p]; simpl in *; try lia.
    by rewrite app_nil_r.
  - assert (Hk : stack m <> []) by (intros E; rewrite E in Hn; simpl in Hn; lia).
    destruct (step_unwinding m Hm Hk) as (Hm' & Hcost & Htr).
    simpl. destruct (IH (step m)) as (H1 & H2 & H3 & H4); [lia|done|].
    repeat split; [done|done|by rewrite H3|].
    rewrite H4. clear - Hk.
    destruct m as [c [|[|[|op rest]] k] t p]; try done; unfold step; simpl.
    + by repeat case_match.
    + by destruct op.
Qed.

(** Past the sentinel, with at most 64 handlers, a step calls no handler:
    the loop test fails, or the index has wrapped to a negative value and
    indexing the handlers panics. *)
Definition past_abort (m : Machine) : Prop :=
  stack m = []
  \/ ((length (handlers (ctx m)) <= 64)%nat
      /\ _abortIndex <= index (ctx m) <= MaxInt8).

Lemma step_past_abort (m : Machine) :
  past_abort m ->
  past_abort (step m) /\ entered (trace (step m)) = entered (trace m).
Proof.
  unfold past_abort, _abortIndex, MaxInt8. change (127 / 2) with 63.
  destruct m as [c k t p]; simpl.
  intros [->|[Hlen Hidx]]; [by split; [left|]|].
  destruct k as [|[|[|op rest]] k]; unfold step; simpl;
    [by split; [left|]| | |].
  - destruct (decide (index c = 127)) as [E|E].
    + rewrite E. change (int8 (127 + 1)) with (-128).
      rewrite int8_small by lia.
      destruct (Z.ltb_spec (-128) (Z.of_nat (length (handlers c)))); [|lia].
      unfold handler_at; simpl. by split; [left|].
    + rewrite !int8_small by lia.
      destruct (Z.ltb_spec (index c + 1) (Z.of_nat (length (handlers c))));
        [lia|].
      simpl. split; [right; lia|done].
  - split; [right; lia|done].
  - destruct op; simpl; unfold _abortIndex, MaxInt8; change (127 / 2) with 63;
      (split; [right; lia|]); try done.
    by rewrite entered_app, app_nil_r.
Qed.

Lemma run_past_abort (fuel : nat) :
  forall m, past_abort m -> entered (trace (run fuel m)) = entered (trace m).
Proof.
  induction fuel as [|fuel IH]; intros m Hm; [done|].
  destruct (step_past_abort m Hm) as [Hm' He]. simpl. by rewrite IH.
Qed.

(** C1, as amended. Once [Abort] has run, at whatever index, a dispatch over
    at most 64 handlers never calls a handler again: not from a [Next] in
    progress, not from a later [Next]. The handlers in progress run the rest
    of their own code ([marks]) and the dispatch comes to its end, as long
    as no more than 64 increments of the index are still to come (the
    [int8] index overflows after that and the dispatch panics). *)
Theorem abort_stops_dispatch (m : Machine) :
  (length (handlers (ctx m)) <= 64)%nat ->
  let m0 := mkMachine (Abort (ctx m)) (stack m) (trace m) false in
  (forall fuel, entered (trace (run fuel m0)) = entered (trace m))
  /\ ((pending (stack m) <= 64)%nat ->
      forall fuel, (cost (stack m) <= fuel)%nat ->
        halted (run fuel m0) = true
        /\ panicked (run fuel m0) = false
        /\ trace (run fuel m0) = (trace m ++ marks (stack m))%list).
Proof.
  intros Hlen m0. split.
  - intros fuel. apply (run_past_abort fuel m0). right.
    unfold m0; simpl. unfold _abortIndex, MaxInt8.
    change (127 / 2) with 63. split; [exact Hlen|lia].
  - intros Hpend fuel Hfuel.
    assert (Hm0 : unwinding m0).
    { unfold unwinding, m0; simpl. unfold _abortIndex, MaxInt8.
      change (127 / 2) with 63. rewrite int8_small by lia.
      repeat split; try done; lia. }
    destruct (unwind (cost (stack m0)) m0 eq_refl Hm0) as (H1 & H2 & H3 & _).
    rewrite (run_ge (cost (stack m0)) fuel m0 Hfuel H1).
    unfold halted. by rewrite H1, H2, H3.
Qed.

(** An aborting handler called from a nested [Next]: the two loops are left,
    and the work after each call is still done. *)
Lemma abort_stops_dispatch_witness :
  let m := mkMachine (with_index 1 (chain [[CallNext; Work "after"];
                                           [CallAbort; Work "cleanup"];
                                           [Work "never"]]))
                     [KBody [Work "cleanup"]; KNext;
                      KBody [Work "after"; CallNext]; KNext]
                     [Enter 0; Enter 1] false in
  let m0 := mkMachine (Abort (ctx m)) (stack m) (trace m) false in
  (forall fuel, entered (trace (run fuel m0)) = [0; 1])
  /\ trace (run 8 m0) = [Enter 0; Enter 1; Mark "cleanup"; Mark "after"]
  /\ halted (run 8 m0) = true.
Proof.
  intros m m0.
  destruct (abort_stops_dispatch m) as [Hsafe Hlive]; [vm_compute; lia|].
  split; [exact Hsafe|].
  destruct (Hlive ltac:(vm_compute; lia) 8%nat ltac:(vm_compute; lia))
    as (H1 & _ & H3).
  split; [exact H3|exact H1].
Defined.

(** C1 as stated does not hold for a list of 65 handlers: after [Abort] the
    index is 63, [Next] makes it 64, and [handlers[64]] is called. *)
Lemma abort_overrun_65_handlers :
  let m := mkMachine (Abort (chain (replicate 65 [Work "h"]))) [KNext] [] false in
  halted (run 10 m) = true
  /\ entered (trace (run 10 m)) = [64]
  /\ entered (trace (run 10 m)) <> entered (trace m).
Proof. vm_compute. repeat split; discriminate. Qed.

(** ** A chain in which one handler aborts *)

(** A handler that never calls [Next] runs to its end in one go; it leaves
    the index alone unless it aborts. *)
Lemma run_body_no_next (p : HandlerFunc) :
  forall (c : Context) (k : list Frame) (t : list Event),
  calls_next p = 0%nat ->
  exists c',
    run (S (length p)) (mkMachine c (KBody p :: k) t false)
    = mkMachine c' k (t ++ op_marks p)%list false
    /\ handlers c' = handlers c
    /\ index c' = if existsb aborts p then _abortIndex else index c.
Proof.
  induction p as [|op rest IH]; intros c k t Hn.
  - exists c. simpl. by rewrite app_nil_r.
  - rewrite calls_next_cons in Hn.
    destruct op; simpl in Hn; try lia.
    all: change (run (S (length (_ :: rest))) ?m)
           with (run (S (length rest)) (step m)).
    all: unfold step, exec_op; simpl ctx; simpl stack; simpl trace.
    all: edestruct IH as (c' & Hrun & Hh & Hi); [exact Hn|].
    all: exists c'; rewrite Hrun; simpl; rewrite Hh, Hi.
    all: repeat split; try done.
    all: try by destruct (existsb aborts rest).
    by rewrite <- app_assoc.
Qed.

(** The two ways through the loop test of [Next]. *)
Lemma step_next_call (c : Context) (k : list Frame) (t : list Event)
      (i : Z) (h : HandlerFunc) :
  index c = i - 1 -> 0 <= i <= 127 ->
  i < int8 (Z.of_nat (length (handlers c))) ->
  handlers c !! Z.to_nat i = Some h ->
  step (mkMachine c (KNext :: k) t false)
  = mkMachine (with_index i c) (KBody h :: KNext :: k)
              (t ++ [Enter i])%list false.
Proof.
  intros Hi Hr Hlt Hh. unfold step; simpl. rewrite Hi.
  replace (i - 1 + 1) with i by lia. rewrite int8_small by lia.
  destruct (Z.ltb_spec i (int8 (Z.of_nat (length (handlers c))))); [|lia].
  unfold handler_at; simpl.
  destruct (Z.leb_spec 0 i); [|lia]. by rewrite Hh.
Qed.

Lemma step_next_leave (c : Context) (k : list Frame) (t : list Event)
      (i : Z) :
  index c = i - 1 -> -128 <= i <= 127 ->
  int8 (Z.of_nat (length (handlers c))) <= i ->
  step (mkMachine c (KNext :: k) t false)
  = mkMachine (with_index i c) k t false.
Proof.
  intros Hi Hr Hge. unfold step; simpl. rewrite Hi.
  replace (i - 1 + 1) with i by lia. rewrite int8_small by lia.
  by destruct (Z.ltb_spec i (int8 (Z.of_nat (length (handlers c))))); [lia|].
Qed.

Section AbortingChain.

Variable hs : list HandlerFunc.
Variable k : nat.

Hypothesis chain_fits : (length hs <= 64)%nat.
Hypothesis k_in_chain : (k < length hs)%nat.
Hypothesis none_calls_next :
  forall i h, hs !! i = Some h -> (i <= k)%nat -> calls_next h = 0%nat.
Hypothesis none_aborts_before :
  forall i h, hs !! i = Some h -> (i < k)%nat -> existsb aborts h = false.
Hypothesis kth_aborts :
  forall h, hs !! k = Some h -> existsb aborts h = true.

(** The loop calls handler [i <= k] and comes back to its test. *)
Lemma call_handler (i : nat) (c : Context) (t : list Event) :
  (i <= k)%nat ->
  handlers c = hs ->
  index c = Z.of_nat i - 1 ->
  exists n c' t',
    run n (mkMachine c [KNext] t false) = mkMachine c' [KNext] t' false
    /\ handlers c' = hs
    /\ index c' = (if decide (i = k) then _abortIndex else Z.of_nat i)
    /\ entered t' = (entered t ++ [Z.of_nat i])%list.
Proof using All.
  intros Hik Hhs Hidx.
  assert (Hil : (i < length hs)%nat) by lia.
  destruct (lookup_lt_is_Some_2 hs i Hil) as [h Hh].
  destruct (run_body_no_next h (with_index (Z.of_nat i) c) [KNext]
              (t ++ [Enter (Z.of_nat i)])%list) as (c' & Hrun & Hh' & Hi').
  { by apply (none_calls_next i). }
  exists (S (S (length h))), c'. eexists. split; [|split; [|split]].
  - change (run (S (S (length h))) ?m) with (run (S (length h)) (step m)).
    rewrite (step_next_call c [] t (Z.of_nat i) h); [exact Hrun|done|lia| |].
    + rewrite Hhs, int8_small; lia.
    + by rewrite Hhs, Nat2Z.id.
  - by rewrite Hh'.
  - rewrite Hi'. simpl. case_decide as Hd.
    + subst i. by rewrite (kth_aborts h Hh).
    + rewrite (none_aborts_before i h Hh); [done|lia].
  - by rewrite !entered_app, entered_op_marks, app_nil_r.
Qed.

(** The loop of [Next], about to increment the index to [i]: it calls
    the handlers [i] to [k] and stops. *)
Lemma loop_to_abort (d : nat) :
  forall (i : nat) (c : Context) (t : list Event),
  (i + d)%nat = k ->
  handlers c = hs ->
  index c = Z.of_nat i - 1 ->
  exists n m,
    run n (mkMachine c [KNext] t false) = m
    /\ stack m = [] /\ panicked m = false
    /\ entered (trace m)
       = (entered t ++ (Z.of_nat <$> seq i (S d)))%list.
Proof using All.
  induction d as [|d IH]; intros i c t Hid Hhs Hidx.
  - destruct (call_handler i c t) as (n & c' & t' & Hrun & Hh' & Hi' & He');
      [lia|done|done|].
    rewrite decide_True in Hi' by lia.
    exists (n + 1)%nat. eexists. split; [reflexivity|].
    rewrite run_add, Hrun. simpl.
    rewrite (step_next_leave c' [] t' 64).
    + simpl. repeat split. by rewrite He'.
    + rewrite Hi'. reflexivity.
    + lia.
    + rewrite Hh', int8_small; lia.
  - destruct (call_handler i c t) as (n & c' & t' & Hrun & Hh' & Hi' & He');
      [lia|done|done|].
    rewrite decide_False in Hi' by lia.
    destruct (IH (S i) c' t') as (n' & m & Hn & Hst & Hp & He);
      [lia|done|lia|].
    exists (n + n')%nat, m. split; [|split; [done|split; [done|]]].
    + by rewrite run_add, Hrun.
    + rewrite He, He'. rewrite <- app_assoc. reflexivity.
Qed.

End AbortingChain.

(** C2, as amended. In a chain of at most 64 handlers where handler [k] is
    the first to abort and no handler up to [k] calls [Next] itself, one
    [Next] from the reset index -1 comes to an end having called handlers
    0 to [k] once each, in order, and no other. *)
Theorem dispatch_until_abort (c : Context) (k : nat) :
  index c = -1 ->
  (length (handlers c) <= 64)%nat ->
  (k < length (handlers c))%nat ->
  (forall i h, handlers c !! i = Some h -> (i <= k)%nat ->
               calls_next h = 0%nat) ->
  (forall i h, handlers c !! i = Some h -> (i < k)%nat ->
               existsb aborts h = false) ->
  (forall h, handlers c !! k = Some h -> existsb aborts h = true) ->
  exists n, forall fuel, (n <= fuel)%nat ->
    halted (Next fuel c) = true
    /\ panicked (Next fuel c) = false
    /\ entered (trace (Next fuel c)) = Z.of_nat <$> seq 0 (S k).
Proof.
  intros Hidx Hfit Hk Hnext Hbefore Hkth.
  destruct (loop_to_abort (handlers c) k Hfit Hk Hnext Hbefore Hkth
              k 0%nat c []) as (n & m & Hrun & Hst & Hp & He);
    [done|done|by rewrite Hidx|].
  exists n. intros fuel Hfuel. unfold Next.
  rewrite (run_ge n fuel) by (by rewrite ?Hrun).
  rewrite Hrun. unfold halted. by rewrite Hst.
Qed.

(** Four handlers, the third aborts through [AbortWithStatus]. *)
Lemma dispatch_until_abort_witness :
  let c := chain [[Work "log"]; [CallSet "user" (VString "u")];
                  [Work "auth"; CallAbortWithStatus 401; Work "deny"];
                  [Work "business"]] in
  exists n, forall fuel, (n <= fuel)%nat ->
    halted (Next fuel c) = true
    /\ panicked (Next fuel c) = false
    /\ entered (trace (Next fuel c)) = Z.of_nat <$> seq 0 3.
Proof.
  intros c. apply (dispatch_until_abort c 2).
  - reflexivity.
  - simpl. lia.
  - simpl. lia.
  - intros [|[|[|[|i]]]] h Hh Hi; simpl in Hh; inversion Hh; subst;
      solve [reflexivity | lia].
  - intros [|[|[|[|i]]]] h Hh Hi; simpl in Hh; inversion Hh; subst;
      solve [reflexivity | lia].
  - intros h Hh. simpl in Hh. inversion Hh. reflexivity.
Defined.

(** C2 as stated does not hold for a chain of 65 handlers: handler 0
    aborts, the index goes from 63 to 64, and handler 64 is called. *)
Lemma dispatch_overrun_65_handlers :
  let c := chain ([CallAbort] :: replicate 64 [Work "h"]) in
  halted (Next 10 c) = true
  /\ entered (trace (Next 10 c)) = [0; 64]
  /\ entered (trace (Next 10 c)) <> Z.of_nat <$> seq 0 1.
Proof. vm_compute. repeat split; discriminate. Qed.

(** ** Rendering *)

Lemma FormatInt_reads_back (z : Z) :
  option_map Z.of_int (NilZero.int_of_string (strconv.FormatInt z)) = Some z.
Proof.
  unfold strconv.FormatInt. rewrite NilZero.isi.
  - simpl. by rewrite DecimalZ.of_to.
  - destruct z; simpl; [done| |done]. intros [= H].
    by apply DecimalPos.Unsigned.to_uint_nonnil in H.
  - destruct z; simpl; [done|done|]. intros [= H].
    by apply DecimalPos.Unsigned.to_uint_nonnil in H.
Qed.

Section RenderingFacts.

Context {ext : Externals}.

(** What [Render] does to the writer: the content type, the status when
    [code] is positive, then the body, if the status allows one. *)
Lemma Render_calls (code : Z) (r : render) (c : Context) :
  exists body,
    Writer (Render code r c)
    = (Writer c ++ WriteContentType r
         :: (if 0 <? code then [WriteHeader code] else []) ++ body)%list
    /\ forallb is_body_call body = true
    /\ (if bodyAllowedForStatus code
        then In (RenderTo r) body
        else body = [] /\ Error (Render code r c) = Error c).
Proof.
  unfold Render.
  set (c1 := call (WriteContentType r) c).
  set (c2 := if 0 <? code then Status code c1 else c1).
  assert (Hw2 : Writer c2 = (Writer c ++ WriteContentType r
                  :: (if 0 <? code then [WriteHeader code] else []))%list).
  { unfold c2, c1. destruct (0 <? code); simpl; [|done].
    by rewrite <- app_assoc. }
  assert (He2 : Error c2 = Error c).
  { unfold c2, c1. by destruct (0 <? code). }
  assert (Hf2 : Form (Request_ c2) = Form (Request_ c)).
  { unfold c2, c1. by destruct (0 <? code). }
  destruct (bodyAllowedForStatus code); simpl.
  - set (cb := JSEscapeString (Values_Get (Form (Request_ c2)) "callback")).
    destruct (String.eqb cb "") eqn:Hcb; simpl.
    + destruct (Render_result r (Writer c2)); simpl; rewrite Hw2;
        exists [RenderTo r]; rewrite <- !app_assoc; simpl; tauto.
    + destruct (Render_result r _); simpl.
      * rewrite Hw2. exists [Write cb; Write _openParen; RenderTo r].
        rewrite <- !app_assoc; simpl; tauto.
      * destruct (Write_result _ _); simpl; rewrite Hw2;
          exists [Write cb; Write _openParen; RenderTo r; Write _closeParen];
          rewrite <- !app_assoc; simpl; tauto.
  - exists []. rewrite app_nil_r. auto.
Qed.

(** [Render] touches the writer and the error, nothing else. *)
Lemma Render_frame (code : Z) (r : render) (c : Context) :
  index (Render code r c) = index c
  /\ ErrorMsg (Render code r c) = ErrorMsg c
  /\ handlers (Render code r c) = handlers c
  /\ Keys (Render code r c) = Keys c
  /\ Request_ (Render code r c) = Request_ c.
Proof.
  unfold Render.
  repeat (case_match; simpl); repeat split.
Qed.

(** The error is left alone when neither the strategy nor the last write
    reports one. *)
Lemma Render_Error (code : Z) (r : render) (c : Context) :
  (forall w, Render_result r w = None) ->
  (forall w, Write_result _closeParen w = None) ->
  Error (Render code r c) = Error c.
Proof.
  intros Hr Hw. unfold Render.
  repeat (case_match; simpl); try done;
    rewrite ?Hr, ?Hw in *; congruence.
Qed.

End RenderingFacts.

Section Responses.

Context {ext : Externals}.

(** C8. [Render] writes the content type, then the status line exactly
    when [code] is positive (no other call of [Render] writes a status),
    then the body; for a code in 100..199, 204 or 304 there is no body:
    the content type and the status are all that is written. *)
Theorem Render_status_and_body (code : Z) (r : render) (c : Context) :
  exists body,
    Writer (Render code r c)
    = (Writer c ++ WriteContentType r
         :: (if 0 <? code then [WriteHeader code] else []) ++ body)%list
    /\ forallb is_body_call body = true
    /\ (100 <= code <= 199 \/ code = 204 \/ code = 304 ->
        body = []
        /\ Writer (Render code r c)
           = (Writer c ++ [WriteContentType r; WriteHeader code])%list).
Proof.
  destruct (Render_calls code r c) as (body & Hw & Hb & Hbody).
  exists body. split; [done|]. split; [done|].
  intros Hcode.
  assert (Hno : bodyAllowedForStatus code = false).
  { unfold bodyAllowedForStatus.
    destruct Hcode as [[??]|[->| ->]]; [|done|done].
    destruct (Z.leb_spec 100 code), (Z.leb_spec code 199); simpl; lia. }
  rewrite Hno in Hbody. destruct Hbody as [-> _]. split; [done|].
  rewrite Hw. destruct (Z.ltb_spec 0 code); [done|lia].
Qed.

(** C3, as amended. [JSON], [XML], [JSONMap] on a live map, and [Protobuf]
    when the payload marshals, set the header [kratos-status-code] to the
    decimal business code and then write status 200, whatever the code.
    [Protobuf] writes nothing when the payload does not marshal. [Bytes],
    [String] and [Redirect] never set that header: [Bytes] and [String]
    write the status the caller passes, when positive, and [Redirect]
    writes no status of its own. *)
Theorem entry_points_status (c : Context) (err : option error) :
  let announced (w : ResponseWriter) :=
    exists r body,
      w = (Writer c ++ [status_header (Code (Cause err));
                        WriteContentType r; WriteHeader 200] ++ body)%list
      /\ forallb is_body_call body = true in
  let plain (code : Z) (r : render) (w : ResponseWriter) :=
    exists body,
      w = (Writer c ++ WriteContentType r
             :: (if 0 <? code then [WriteHeader code] else []) ++ body)%list
      /\ forallb is_body_call body = true in
  (forall data now, announced (Writer (JSON data err now c)))
  /\ (forall data, announced (Writer (XML data err c)))
  /\ (forall l h,
        match h !! l, JSONMap (Some l) err (c, h) with
        | Some _, Returned (c', _) => announced (Writer c')
        | Some _, Panicked _ => False
        | None, _ => True
        end)
  /\ announced (Writer (Protobuf None err c))
  /\ (forall msg,
        match Marshal msg with
        | inl _ => announced (Writer (Protobuf (Some msg) err c))
        | inr _ => Writer (Protobuf (Some msg) err c) = Writer c
        end)
  /\ (forall code contentType data,
        plain code (render_Data contentType data)
              (Writer (Bytes code contentType data c)))
  /\ (forall code format values,
        plain code (render_String format values)
              (Writer (String_ code format values c)))
  /\ (forall code location,
        plain (-1) (render_Redirect code location (Request_ c))
              (Writer (Redirect code location c))).
Proof.
  intros announced plain.
  assert (Hann : forall r c0,
    Writer c0 = writeStatusCode (Writer c) (Code (Cause err)) ->
    announced (Writer (Render StatusOK r c0))).
  { intros r c0 Hc0.
    destruct (Render_calls StatusOK r c0) as (body & Hw & Hb & _).
    exists r, body. split; [|done].
    rewrite Hw, Hc0. unfold writeStatusCode, status_header.
    by rewrite <- app_assoc. }
  assert (Hplain : forall code r, plain code r (Writer (Render code r c))).
  { intros code r.
    destruct (Render_calls code r c) as (body & Hw & Hb & _).
    by exists body. }
  repeat split.
  - intros data now. unfold JSON. case_match; by apply Hann.
  - intros data. unfold XML. by apply Hann.
  - intros l h. unfold JSONMap. simpl.
    destruct (h !! l) as [m|]; simpl; [|done]. by apply Hann.
  - unfold Protobuf. by apply Hann.
  - intros msg. unfold Protobuf. destruct (Marshal msg); [|done].
    by apply Hann.
  - intros code contentType data. apply Hplain.
  - intros code format values. apply Hplain.
  - intros code location. apply Hplain.
Qed.

(** C5. When the business message contains ["||"], [JSON] renders a map:
    ["ret"] is the business code, ["code"] the part of the message before
    the first separator, ["message"] the part after it (up to a second
    separator, if there is one), ["now"] the clock reading and ["data"]
    the payload. Otherwise it renders the envelope of the code, the
    message and the payload. *)
Theorem JSON_legacy_or_envelope (data : GoVal) (err : option error)
        (now : Z) (c : Context) :
  let bcode := Cause err in
  let msg := Message bcode in
  let first := strings.Cut_before msg "||" in
  let second := strings.Cut_before (strings.Cut_after msg "||") "||" in
  let c0 := with_Writer (writeStatusCode (Writer c) (Code bcode))
                        (with_Error err c) in
  let out : gmap string GoVal :=
    {[ "ret" := VInt (Code bcode); "code" := VString first;
       "message" := VString second; "now" := VInt64 now;
       "data" := data ]} in
  if strings.Contains msg "||" then
    JSON data err now c = Render 200 (render_MapJSON out) c0
    /\ In (RenderTo (render_MapJSON out)) (Writer (JSON data err now c))
    /\ msg = first +:+ "||" +:+ strings.Cut_after msg "||"
    /\ strings.Contains first "||" = false
    /\ strings.Contains second "||" = false
    /\ strings.Split msg "||"
       = first :: second
           :: match strings.Split (strings.Cut_after msg "||") "||" with
              | _ :: more => more
              | [] => []
              end
    /\ (if strings.Contains (strings.Cut_after msg "||") "||" then True
        else msg = first +:+ "||" +:+ second)
  else
    JSON data err now c
    = Render 200 (render_JSON (Code bcode) msg data) c0
    /\ In (RenderTo (render_JSON (Code bcode) msg data))
          (Writer (JSON data err now c)).
Proof.
  intros bcode msg first second c0 out.
  assert (Hsep : "||" <> "") by done.
  assert (Hin : forall r, In (RenderTo r) (Writer (Render 200 r c0))).
  { intros r. destruct (Render_calls 200 r c0) as (body & -> & _ & Hb).
    simpl in Hb. apply in_or_app. right. right. right. exact Hb. }
  unfold JSON. fold bcode msg c0.
  rewrite (Split_length msg "||" Hsep).
  destruct (strings.Contains msg "||") eqn:Hc.
  - assert (Hsplit : strings.Split msg "||"
              = first :: strings.Split (strings.Cut_after msg "||") "||").
    { rewrite Split_cut by done. by rewrite Hc. }
    assert (H1 : nth 1 (strings.Split msg "||") "" = second).
    { rewrite Hsplit. simpl. by apply Split_head. }
    assert (H0 : nth 0 (strings.Split msg "||") "" = first).
    { by apply Split_head. }
    rewrite H0, H1.
    assert (Hout : <["data":=data]> (<["now":=VInt64 now]>
                     (<["code":=VString first]> (<["message":=VString second]>
                       (<["ret":=VInt (Code bcode)]> ∅)))) = out).
    { apply map_eq. intros key. unfold out.
      destruct (decide (key = "data")) as [->|]; [done|].
      destruct (decide (key = "now")) as [->|]; [done|].
      destruct (decide (key = "code")) as [->|]; [done|].
      destruct (decide (key = "message")) as [->|]; [done|].
      destruct (decide (key = "ret")) as [->|]; [done|].
      rewrite !lookup_insert_ne, lookup_empty, lookup_singleton_ne by done.
      done. }
    rewrite Hout.
    split; [done|]. split; [apply Hin|]. split; [by apply Cut_join|].
    split; [by apply Cut_before_clean|].
    split; [by apply Cut_before_clean|].
    split.
    + rewrite Hsplit. f_equal.
      rewrite (Split_cut (strings.Cut_after msg "||")) by done.
      unfold second.
      destruct (strings.Contains (strings.Cut_after msg "||") "||") eqn:Hc2;
        [done|]. by rewrite Cut_before_all.
    + destruct (strings.Contains (strings.Cut_after msg "||") "||") eqn:Hc2;
        [done|].
      unfold second. rewrite Cut_before_all by done. by apply Cut_join.
  - split; [done|apply Hin].
Qed.

(** C10. [JSONMap] changes the caller's map where it lies: ["code"]
    becomes the business code whatever it was, ["message"] becomes the
    business message only if the map had none, every other entry, and
    every other map, stays as it was; the map so changed is what is
    rendered. *)
Theorem JSONMap_in_place (l : positive) (m : gmap string GoVal) (h : Heap)
        (err : option error) (c : Context) :
  h !! l = Some m ->
  let bcode := Cause err in
  let c0 := with_Writer (writeStatusCode (Writer c) (Code bcode))
                        (with_Error err c) in
  exists m',
    JSONMap (Some l) err (c, h)
    = Returned (Render 200 (render_MapJSON m') c0, <[l := m']> h)
    /\ m' !! "code" = Some (VInt (Code bcode))
    /\ m' !! "message"
       = Some (default (VString (Message bcode)) (m !! "message"))
    /\ (forall key, key <> "code" -> key <> "message" ->
                    m' !! key = m !! key)
    /\ (forall l', l' <> l -> (<[l := m']> h) !! l' = h !! l')
    /\ In (RenderTo (render_MapJSON m'))
          (Writer (Render 200 (render_MapJSON m') c0)).
Proof.
  intros Hl bcode c0.
  assert (Hin : forall r, In (RenderTo r) (Writer (Render 200 r c0))).
  { intros r. destruct (Render_calls 200 r c0) as (body & -> & _ & Hb).
    simpl in Hb. apply in_or_app. right. right. right. exact Hb. }
  unfold JSONMap. simpl. rewrite Hl. simpl. fold bcode c0.
  rewrite lookup_insert_ne by done.
  destruct (m !! "message") as [v|] eqn:Hm; eexists; (split; [reflexivity|]).
  - rewrite lookup_insert_eq, lookup_insert_ne, Hm by done.
    repeat split; try done.
    + intros key H1 H2. by rewrite lookup_insert_ne.
    + intros l' Hl'. by rewrite lookup_insert_ne.
  - rewrite lookup_insert_eq, lookup_insert_ne, lookup_insert_eq by done.
    repeat split; try done.
    + intros key H1 H2. by rewrite !lookup_insert_ne.
    + intros l' Hl'. by rewrite lookup_insert_ne.
Qed.

Lemma foldl_semicolons (vs : list string) :
  forall acc,
  foldl (fun message v => message +:+ (v +:+ ";")) acc vs
  = acc +:+ semicolons vs.
Proof.
  induction vs as [|v vs IH]; intros acc; simpl.
  - by rewrite append_nil_r.
  - by rewrite IH, !append_assoc.
Qed.

(** C4. When the binding reports an error, [BindWith] (and [Bind], which
    is [BindWith] on the binding chosen from the method and the content
    type) stores the bad-request code in [Error] and the text of the error
    in [ErrorMsg], writes status 200 and a JSON envelope with the
    bad-request code and a message, and aborts the chain. The message is
    the text of the error, or, for validation errors, the translated
    messages in the order the map yields them, a semicolon after each.
    [Error] still holds the bad-request code at the end unless writing the
    envelope itself reports an error. When the binding reports none,
    nothing is changed and nil is returned. *)
Theorem binding_outcome (b : Binding) (c : Context) :
  Bind c = BindWith (binding_Default (Method (Request_ c))
                       (Values_Get (Header (Request_ c)) "Content-Type")) c
  /\ match b (Request_ c) with
     | None => BindWith b c = (c, None)
     | Some err =>
         let message :=
           match err with
           | ValidationErrors _ errs => semicolons (snd <$> range_order errs)
           | _ => Error_ err
           end in
         let envelope := render_JSON (Code RequestErr) message VNil in
         let c1 := with_ErrorMsg (Error_ err)
                     (with_Error (Some (CodesError RequestErr)) c) in
         let c' := fst (BindWith b c) in
         BindWith b c = (Abort (Render 200 envelope c1), Some err)
         /\ ErrorMsg c' = Error_ err
         /\ index c' = _abortIndex
         /\ IsAborted c' = true
         /\ (exists body,
               Writer c'
               = (Writer c ++ [WriteContentType envelope; WriteHeader 200]
                    ++ body)%list
               /\ forallb is_body_call body = true
               /\ In (RenderTo envelope) body)
         /\ match err with
            | ValidationErrors _ errs =>
                snd <$> range_order errs ≡ₚ snd <$> map_to_list errs
            | _ => True
            end
         /\ ((forall w, Render_result envelope w = None) ->
             (forall w, Write_result _closeParen w = None) ->
             Error c' = Some (CodesError RequestErr))
     end.
Proof.
  split; [done|].
  unfold BindWith, mustBindWith.
  destruct (b (Request_ c)) as [err|]; [|done].
  assert (Hmsg : match err with
                 | ValidationErrors _ errs =>
                     foldl (fun message v => message +:+ (v +:+ ";")) ""
                           (snd <$> range_order errs)
                 | _ => Error_ err
                 end
                 = match err with
                   | ValidationErrors _ errs =>
                       semicolons (snd <$> range_order errs)
                   | _ => Error_ err
                   end).
  { destruct err; try done. by rewrite foldl_semicolons. }
  rewrite Hmsg. clear Hmsg.
  set (message := match err with
                  | ValidationErrors _ errs => _
                  | _ => _
                  end).
  set (envelope := render_JSON (Code RequestErr) message VNil).
  set (c1 := with_ErrorMsg (Error_ err)
               (with_Error (Some (CodesError RequestErr)) c)).
  simpl.
  destruct (Render_frame StatusOK envelope c1) as (Hi & Hm & _).
  destruct (Render_calls StatusOK envelope c1) as (body & Hw & Hb & Hin).
  repeat split; try done.
  - exists body. by rewrite Hw.
  - destruct err; try done. by rewrite (range_order_perm translations).
  - intros Hr Hc. by rewrite (Render_Error StatusOK envelope c1 Hr Hc).
Qed.

End Responses.

(** The caller's map had stale ["code"] and its own ["message"]. *)
Lemma JSONMap_in_place_witness :
  let m : gmap string GoVal :=
    {[ "code" := VString "stale"; "message" := VString "mine";
       "items" := VInt 3 ]} in
  let h : Heap := {[ 7%positive := m ]} in
  let c0 := with_Writer (writeStatusCode (Writer idle) (Code (Cause None)))
                        (with_Error None idle) in
  exists m',
    JSONMap (Some 7%positive) None (idle, h)
    = Returned (Render 200 (render_MapJSON m') c0, <[7%positive := m']> h)
    /\ m' !! "code" = Some (VInt (Code (Cause None)))
    /\ m' !! "message"
       = Some (default (VString (Message (Cause None))) (m !! "message"))
    /\ (forall key, key <> "code" -> key <> "message" -> m' !! key = m !! key)
    /\ (forall l', l' <> 7%positive ->
                   (<[7%positive := m']> h) !! l' = h !! l')
    /\ In (RenderTo (render_MapJSON m'))
          (Writer (Render 200 (render_MapJSON m') c0)).
Proof.
  intros m h c0. apply (JSONMap_in_place 7%positive m h None idle).
  reflexivity.
Defined.

Example JSONMap_keeps_message :
  let m : gmap string GoVal :=
    {[ "code" := VString "stale"; "message" := VString "mine";
       "items" := VInt 3 ]} in
  JSONMap (Some 7%positive) None (idle, {[ 7%positive := m ]})
  = Returned
      (Render 200 (render_MapJSON
                     {[ "code" := VInt 0; "message" := VString "mine";
                        "items" := VInt 3 ]})
              (with_Writer [HeaderSet "kratos-status-code" "0"] idle),
       {[ 7%positive := {[ "code" := VInt 0; "message" := VString "mine";
                           "items" := VInt 3 ]} ]}).
Proof. vm_compute. reflexivity. Qed.

Example JSONMap_nil_map_panics :
  JSONMap None None (idle, ∅)
  = Panicked (with_Writer [HeaderSet "kratos-status-code" "0"] idle, ∅).
Proof. reflexivity. Qed.

Example Bind_validation_failure :
  let errs : gmap string string :=
    {[ "User.Age" := "Age must be 18 or greater";
       "User.Name" := "Name is a required field" ]} in
  let b : Binding := fun _ => Some (ValidationErrors "raw text" errs) in
  let c' := fst (BindWith b idle) in
  Writer c'
  = [WriteContentType
       (render_JSON (-400)
          "Age must be 18 or greater;Name is a required field;" VNil);
     WriteHeader 200;
     RenderTo
       (render_JSON (-400)
          "Age must be 18 or greater;Name is a required field;" VNil)]
  /\ Error c' = Some (CodesError (mkCodes "-400" (-400) "-400"))
  /\ ErrorMsg c' = "raw text"
  /\ index c' = 63.
Proof. vm_compute. repeat split. Qed.

Example JSON_legacy_4001 :
  let err := Some (CodesError (mkCodes "4001" 4001 "4001||Invalid input")) in
  Writer (JSON (VString "payload") err 1700000000 idle)
  = [HeaderSet "kratos-status-code" "4001";
     WriteContentType (render_MapJSON
        {[ "ret" := VInt 4001; "code" := VString "4001";
           "message" := VString "Invalid input"; "now" := VInt64 1700000000;
           "data" := VString "payload" ]});
     WriteHeader 200;
     RenderTo (render_MapJSON
        {[ "ret" := VInt 4001; "code" := VString "4001";
           "message" := VString "Invalid input"; "now" := VInt64 1700000000;
           "data" := VString "payload" ]})].
Proof. vm_compute. reflexivity. Qed.

Example JSON_success :
  Writer (JSON (VString "payload") None 1700000000 idle)
  = [HeaderSet "kratos-status-code" "0";
     WriteContentType (render_JSON 0 "0" (VString "payload"));
     WriteHeader 200;
     RenderTo (render_JSON 0 "0" (VString "payload"))].
Proof. vm_compute. reflexivity. Qed.

(** C3 as stated does not hold for [Bytes]: the header is not set and the
    status is the caller's 404. *)
Lemma Bytes_writes_no_status_header :
  let w := Writer (Bytes 404 "text/plain" ["not found"] idle) in
  w = [WriteContentType (render_Data "text/plain" ["not found"]);
       WriteHeader 404;
       RenderTo (render_Data "text/plain" ["not found"])]
  /\ (forall v, ~ In (HeaderSet "kratos-status-code" v) w)
  /\ ~ In (WriteHeader 200) w.
Proof.
  simpl. split; [reflexivity|].
  split; [intros v|]; intros [H|[H|[H|[]]]]; discriminate H.
Qed.

(** ** Reuse of a pooled context *)

(** C6. After [reset] the execution context is nil, the index is -1, the
    handlers, the keys and the error are nil, the error message, the method
    and the route path are empty, and the route parameters have length 0
    over the backing array they had (same capacity); every getter reads a
    zero value; and none of this depends on the context that was reset. *)
Theorem reset_clears (c : Context) :
  let c' := reset c in
  Context_ c' = None
  /\ index c' = -1 /\ index c' < 0 /\ IsAborted c' = false
  /\ handlers c' = []
  /\ Keys c' = None
  /\ Error c' = None
  /\ ErrorMsg c' = ""
  /\ method c' = ""
  /\ RoutePath c' = ""
  /\ len (Params_ c') = 0%nat
  /\ elems (Params_ c') = []
  /\ cap (Params_ c') = cap (Params_ c)
  /\ backing (Params_ c') = backing (Params_ c)
  /\ (forall key,
        Get key c' = (VNil, false) /\ GetString key c' = ""
        /\ GetBool key c' = false /\ GetInt key c' = 0
        /\ GetInt64 key c' = 0 /\ GetUint key c' = 0
        /\ GetUint64 key c' = 0 /\ GetFloat64 key c' = 0)
  /\ (forall c2, per_request c' = per_request (reset c2)).
Proof. simpl. repeat split. Qed.

(** [reset] leaves the request, the writer and the engine to its caller. *)
Lemma reset_frame (c : Context) :
  Request_ (reset c) = Request_ c
  /\ Writer (reset c) = Writer c
  /\ engine (reset c) = engine c.
Proof. done. Qed.

(** ** The key/value store *)

Lemma held_Set (key : string) (v : GoVal) (c : Context) :
  held key (Set_ key v c) = Some v.
Proof. unfold held, Set_; simpl. by rewrite lookup_insert_eq. Qed.

Lemma held_Set_other (key key' : string) (v : GoVal) (c : Context) :
  key <> key' -> held key' (Set_ key v c) = held key' c.
Proof.
  intros Hne. unfold held, Set_; simpl. rewrite lookup_insert_ne by done.
  by destruct (Keys c).
Qed.

Lemma Get_held (key : string) (c : Context) :
  Get key c = match held key c with
              | Some v => (v, true)
              | None => (VNil, false)
              end.
Proof. unfold Get, held. by destruct (Keys c). Qed.

(** C9. Each typed accessor returns the stored value when the key holds a
    value of exactly its type, and the zero value of its type in every other
    case: no key, a nil value, a value of another type. None of them can
    fail. After [Set("x", 5)], [GetString("x")] is empty and [GetInt("x")]
    is 5. *)
Theorem typed_accessors (key : string) (c : Context) :
  GetString key c = match held key c with Some (VString s) => s | _ => "" end
  /\ GetBool key c = match held key c with Some (VBool b) => b | _ => false end
  /\ GetInt key c = match held key c with Some (VInt i) => i | _ => 0 end
  /\ GetInt64 key c = match held key c with Some (VInt64 i) => i | _ => 0 end
  /\ GetUint key c = match held key c with Some (VUint u) => u | _ => 0 end
  /\ GetUint64 key c
     = match held key c with Some (VUint64 u) => u | _ => 0 end
  /\ GetFloat64 key c
     = match held key c with Some (VFloat64 f) => f | _ => 0 end
  /\ GetString "x" (Set_ "x" (VInt 5) c) = ""
  /\ GetInt "x" (Set_ "x" (VInt 5) c) = 5.
Proof.
  unfold GetString, GetBool, GetInt, GetInt64, GetUint, GetUint64, GetFloat64.
  rewrite !Get_held, held_Set.
  destruct (held key c) as [[]|]; simpl; repeat split.
Qed.

(** ** Remote address *)

Section RemoteAddress.

Context {ext : Externals}.

(** C7. [RemoteIP] is the value of the request metadata when that is not
    empty; otherwise the text of [X-Forwarded-For] before its first comma,
    trimmed, when that is not empty; otherwise [X-Real-Ip], trimmed, which
    is empty when the header is absent. The value is returned as it is,
    whatever it looks like. *)
Theorem RemoteIP_precedence (c : Context) :
  let md := metadata_String c metadata_RemoteIP in
  let xff := strings.TrimSpace
               (strings.Cut_before
                  (Values_Get (Header (Request_ c)) "X-Forwarded-For") ",") in
  let xri := strings.TrimSpace
               (Values_Get (Header (Request_ c)) "X-Real-Ip") in
  RemoteIP c = (if decide (md = "") then
                  if decide (xff = "") then xri else xff
                else md)
  /\ strings.TrimSpace (Values_Get ∅ "X-Real-Ip") = "".
Proof.
  intros md xff xri. split; [|done].
  unfold RemoteIP. fold md. rewrite Split_head by done. fold xff xri.
  destruct (String.eqb_spec md ""), (String.eqb_spec xff "");
    simpl; repeat case_decide; done.
Qed.

End RemoteAddress.

Example RemoteIP_forwarded :
  let req := mkRequest "GET" {[ "X-Forwarded-For" := ["1.2.3.4, 5.6.7.8"];
                                 "X-Real-Ip" := ["9.9.9.9"] ]} ∅ in
  let c := mkContext (Some None) req [] (-1) [] None None "" "" 0 ""
                     (mkParams [] 0) in
  RemoteIP c = "1.2.3.4"
  /\ RemoteIP (mkContext (Some (Some {[ "remote_ip" := VString "not an ip" ]}))
                         req [] (-1) [] None None "" "" 0 "" (mkParams [] 0))
     = "not an ip".
Proof. vm_compute. done. Qed.

(** * Further properties *)

(** ** Dispatch without abort *)

Lemma int8_le (z : Z) : 0 <= z -> int8 z <= z.
Proof.
  intros Hz. unfold int8. pose proof (Z.mod_le (z + 128) 256). lia.
Qed.

Lemma reach_le (hs : list HandlerFunc) : (reach hs <= length hs)%nat.
Proof.
  unfold reach. pose proof (int8_le (Z.of_nat (length hs))). lia.
Qed.

Lemma reach_small (hs : list HandlerFunc) :
  (length hs <= 127)%nat -> reach hs = length hs.
Proof. intros H. unfold reach. rewrite int8_small by lia. lia. Qed.

Lemma reach_bound (hs : list HandlerFunc) :
  int8 (Z.of_nat (length hs)) <= Z.of_nat (reach hs) <= 127.
Proof.
  unfold reach. pose proof (int8_range (Z.of_nat (length hs))). lia.
Qed.

(** A handler that neither calls [Next] nor aborts is called by the loop
    and returns to it with the index where it was. *)
Lemma call_plain (c : Context) (k : list Frame) (t : list Event) (i : nat)
      (h : HandlerFunc) :
  index c = Z.of_nat i - 1 ->
  Z.of_nat i < int8 (Z.of_nat (length (handlers c))) ->
  handlers c !! i = Some h ->
  calls_next h = 0%nat -> existsb aborts h = false ->
  exists c',
    run (S (S (length h))) (mkMachine c (KNext :: k) t false)
    = mkMachine c' (KNext :: k) (t ++ Enter (Z.of_nat i) :: op_marks h)%list
                false
    /\ handlers c' = handlers c
    /\ index c' = Z.of_nat i.
Proof.
  intros Hidx Hlt Hh Hn Ha.
  pose proof (int8_range (Z.of_nat (length (handlers c)))).
  destruct (run_body_no_next h (with_index (Z.of_nat i) c) (KNext :: k)
              (t ++ [Enter (Z.of_nat i)])%list Hn) as (c' & Hrun & Hh' & Hi').
  exists c'. rewrite Ha in Hi'. split; [|done].
  change (run (S (S (length h))) ?m) with (run (S (length h)) (step m)).
  rewrite (step_next_call c k t (Z.of_nat i) h); [|done|lia|done|].
  - rewrite Hrun. by rewrite <- app_assoc.
  - by rewrite Nat2Z.id.
Qed.

Section PlainChain.

Variable hs : list HandlerFunc.
Variables start stop : nat.

Hypothesis stop_in_reach : (stop <= reach hs)%nat.
Hypothesis plain_before_stop :
  forall j h, hs !! j = Some h -> (start <= j < stop)%nat ->
              calls_next h = 0%nat /\ existsb aborts h = false.

(** The loop, about to increment the index to [a], calls the handlers from
    [a] up to [stop] and is back at its test. *)
Lemma loop_plain (d : nat) :
  forall (a : nat) (c : Context) (k : list Frame) (t : list Event),
  (a + d)%nat = stop -> (start <= a)%nat ->
  handlers c = hs ->
  index c = Z.of_nat a - 1 ->
  exists n c',
    run n (mkMachine c (KNext :: k) t false)
    = mkMachine c' (KNext :: k)
                (t ++ flat_from a (drop a (take stop hs)))%list false
    /\ handlers c' = hs
    /\ index c' = Z.of_nat stop - 1.
Proof using All.
  pose proof (reach_le hs) as Hrl. pose proof (reach_bound hs) as Hrb.
  induction d as [|d IH]; intros a c k t Had Hsa Hhs Hidx.
  - assert (a = stop) as -> by lia.
    exists 0%nat, c. simpl.
    rewrite drop_ge by (rewrite length_take; lia).
    simpl. by rewrite app_nil_r.
  - assert (Ha : (a < stop)%nat) by lia.
    assert (Hal : (a < length hs)%nat) by lia.
    destruct (lookup_lt_is_Some_2 hs a Hal) as [h Hh].
    destruct (plain_before_stop a h Hh (conj Hsa Ha)) as [Hn Hab].
    destruct (call_plain c k t a h) as (c1 & Hrun & Hh1 & Hi1);
      [done| |by rewrite Hhs|done|done|].
    { rewrite Hhs. unfold reach in *. lia. }
    destruct (IH (S a) c1 k (t ++ Enter (Z.of_nat a) :: op_marks h)%list)
      as (n & c' & Hrun' & Hh' & Hi'); [lia|lia|congruence|lia|].
    exists (S (S (length h)) + n)%nat, c'.
    rewrite run_add, Hrun, Hrun'. split; [|done].
    f_equal.
    assert (Hd : drop a (take stop hs) = h :: drop (S a) (take stop hs)).
    { apply drop_S. rewrite lookup_take_lt by lia. done. }
    rewrite Hd. simpl. rewrite <- app_assoc. done.
Qed.

End PlainChain.

(** A chain whose reachable handlers neither call [Next] nor abort: one
    [Next] from the reset index calls them in order and ends. *)
Lemma plain_dispatch (c : Context) :
  index c = -1 ->
  (forall j h, handlers c !! j = Some h -> (j < reach (handlers c))%nat ->
               calls_next h = 0%nat /\ existsb aborts h = false) ->
  exists n c',
    (forall fuel, (n <= fuel)%nat ->
       Next fuel c
       = mkMachine c' []
           (flat_from 0 (take (reach (handlers c)) (handlers c))) false)
    /\ handlers c' = handlers c
    /\ index c' = Z.of_nat (reach (handlers c)).
Proof.
  intros Hidx Hplain.
  pose proof (reach_bound (handlers c)) as Hrb.
  destruct (loop_plain (handlers c) 0 (reach (handlers c)) (le_n _)
              (fun j h Hj Hr => Hplain j h Hj (proj2 Hr))
              (reach (handlers c)) 0%nat c [] [])
    as (n & c1 & Hrun & Hh & Hi); [done|done|done|by rewrite Hidx|].
  exists (n + 1)%nat, (with_index (Z.of_nat (reach (handlers c))) c1).
  split; [|by split].
  intros fuel Hfuel. unfold Next.
  assert (Hend : run (n + 1) (mkMachine c [KNext] [] false)
    = mkMachine (with_index (Z.of_nat (reach (handlers c))) c1) []
        (flat_from 0 (take (reach (handlers c)) (handlers c))) false).
  { rewrite run_add, Hrun. simpl.
    rewrite (step_next_leave c1 [] _ (Z.of_nat (reach (handlers c))));
      [done|lia|lia|]. rewrite Hh. lia. }
  rewrite (run_ge (n + 1) fuel) by (by rewrite ?Hend). exact Hend.
Qed.

(** X4. When no handler within reach calls [Next] or aborts, one [Next]
    from the reset index calls the first [int8(len(handlers))] handlers once
    each, in order, each running all of its own code, and returns with the
    index at that count; a list of up to 127 handlers is called in full. *)
Theorem dispatch_runs_chain_in_order (c : Context) :
  index c = -1 ->
  (forall j h, handlers c !! j = Some h -> (j < reach (handlers c))%nat ->
               calls_next h = 0%nat /\ existsb aborts h = false) ->
  exists n, forall fuel, (n <= fuel)%nat ->
    halted (Next fuel c) = true
    /\ panicked (Next fuel c) = false
    /\ trace (Next fuel c)
       = flat_from 0 (take (reach (handlers c)) (handlers c))
    /\ index (ctx (Next fuel c)) = Z.of_nat (reach (handlers c))
    /\ ((length (handlers c) <= 127)%nat ->
        trace (Next fuel c) = flat_from 0 (handlers c)
        /\ index (ctx (Next fuel c)) = Z.of_nat (length (handlers c))).
Proof.
  intros Hidx Hplain.
  destruct (plain_dispatch c Hidx Hplain) as (n & c' & Hrun & Hh & Hi).
  exists n. intros fuel Hfuel. rewrite (Hrun fuel Hfuel). simpl.
  repeat split; try done.
  - rewrite reach_small by done. by rewrite take_ge.
  - by rewrite Hi, reach_small.
Qed.

Lemma dispatch_runs_chain_in_order_witness :
  let c := chain [[Work "log"]; [CallSet "user" (VString "u"); Work "auth"];
                  [Work "business"; CallStatus 200]] in
  exists n, forall fuel, (n <= fuel)%nat ->
    trace (Next fuel c)
    = [Enter 0; Mark "log"; Enter 1; Mark "auth"; Enter 2; Mark "business"]
    /\ index (ctx (Next fuel c)) = 3.
Proof.
  intros c. destruct (dispatch_runs_chain_in_order c) as [n Hn].
  - reflexivity.
  - intros [|[|[|j]]] h Hh Hj; simpl in Hh; inversion Hh; subst;
      solve [split; reflexivity | vm_compute in Hj; lia].
  - exists n. intros fuel Hfuel.
    destruct (Hn fuel Hfuel) as (_ & _ & Ht & Hi & _). split; [exact Ht|exact Hi].
Defined.

(** X5. After such a dispatch over up to 127 handlers nobody has aborted,
    yet [IsAborted] answers true as soon as the chain has 63 handlers or
    more: the index has walked up to the sentinel. *)
Theorem IsAborted_after_full_dispatch (c : Context) :
  index c = -1 ->
  (length (handlers c) <= 127)%nat ->
  (forall j h, handlers c !! j = Some h ->
               calls_next h = 0%nat /\ existsb aborts h = false) ->
  exists n, forall fuel, (n <= fuel)%nat ->
    IsAborted (ctx (Next fuel c)) = (63 <=? Z.of_nat (length (handlers c))).
Proof.
  intros Hidx Hlen Hplain.
  destruct (plain_dispatch c Hidx) as (n & c' & Hrun & Hh & Hi).
  { intros j h Hj _. by apply (Hplain j). }
  exists n. intros fuel Hfuel. rewrite (Hrun fuel Hfuel). simpl.
  unfold IsAborted. by rewrite Hi, reach_small.
Qed.

Lemma IsAborted_after_full_dispatch_witness :
  exists n, forall fuel, (n <= fuel)%nat ->
    IsAborted (ctx (Next fuel (chain (replicate 63 [Work "h"])))) = true.
Proof.
  destruct (IsAborted_after_full_dispatch (chain (replicate 63 [Work "h"])))
    as [n Hn].
  - reflexivity.
  - vm_compute. lia.
  - intros j h Hh. change (replicate 63 [Work "h"] !! j = Some h) in Hh.
    apply lookup_replicate in Hh as [-> _].
    split; reflexivity.
  - exists n. intros fuel Hfuel. exact (Hn fuel Hfuel).
Defined.

(** X6. With 128 to 256 handlers [int8(len(c.handlers))] is not positive:
    [Next] from the reset index calls no handler at all, whatever the
    handlers are, and returns with the index at 0. *)
Theorem dispatch_oversized_chain (c : Context) (fuel : nat) :
  index c = -1 ->
  (128 <= length (handlers c) <= 256)%nat ->
  (1 <= fuel)%nat ->
  Next fuel c = mkMachine (with_index 0 c) [] [] false.
Proof.
  intros Hidx Hlen Hfuel.
  assert (H8 : int8 (Z.of_nat (length (handlers c))) <= 0).
  { unfold int8.
    rewrite <- (Z.mod_unique_pos (Z.of_nat (length (handlers c)) + 128) 256 1
                  (Z.of_nat (length (handlers c)) - 128)); lia. }
  unfold Next.
  assert (H1 : run 1 (mkMachine c [KNext] [] false)
               = mkMachine (with_index 0 c) [] [] false).
  { simpl. apply step_next_leave; [by rewrite Hidx|lia|done]. }
  rewrite (run_ge 1 fuel) by (by rewrite ?H1). exact H1.
Qed.

Lemma dispatch_oversized_chain_witness :
  trace (Next 5 (chain (replicate 128 [CallAbort; Work "h"]))) = [].
Proof.
  rewrite (dispatch_oversized_chain (chain (replicate 128 [CallAbort; Work "h"])) 5).
  - reflexivity.
  - reflexivity.
  - vm_compute. lia.
  - lia.
Defined.

(** ** A handler that wraps the rest of the chain *)

(** The calls a handler makes before its [Next], none of them aborting. *)
Lemma run_ops_before_next (pre : HandlerFunc) :
  forall (rest : HandlerFunc) (c : Context) (k : list Frame) (t : list Event),
  calls_next pre = 0%nat -> existsb aborts pre = false ->
  exists c',
    run (length pre) (mkMachine c (KBody (pre ++ rest)%list :: k) t false)
    = mkMachine c' (KBody rest :: k) (t ++ op_marks pre)%list false
    /\ handlers c' = handlers c
    /\ index c' = index c.
Proof.
  induction pre as [|op pre IH]; intros rest c k t Hn Ha.
  - exists c. simpl. by rewrite app_nil_r.
  - rewrite calls_next_cons in Hn. simpl in Ha.
    apply orb_false_iff in Ha as [Hop Ha].
    destruct op; simpl in Hn, Hop; try lia; try done.
    all: change (run (length (_ :: pre)) ?m) with (run (length pre) (step m)).
    all: unfold step, exec_op; simpl ctx; simpl stack; simpl trace.
    all: edestruct IH as (c' & Hrun & Hh & Hi); [exact Hn|exact Ha|].
    all: exists c'; rewrite Hrun; simpl; rewrite Hh, Hi.
    all: repeat split; try done.
    by rewrite <- app_assoc.
Qed.

Lemma step_call_next (c : Context) (rest : HandlerFunc) (k : list Frame)
      (t : list Event) :
  step (mkMachine c (KBody (CallNext :: rest) :: k) t false)
  = mkMachine c (KNext :: KBody rest :: k) t false.
Proof. reflexivity. Qed.

(** X7. A handler at position [i] that does [pre], calls [Next] and then
    does [post], in a chain of up to 126 handlers whose other handlers
    neither call [Next] nor abort: the handlers before it run first, then
    [pre], then every handler after it, and only then [post]; no handler
    runs twice, and the dispatch ends with the index one past the length. *)
Theorem dispatch_around_next (c : Context) (i : nat) (pre post : HandlerFunc) :
  index c = -1 ->
  (length (handlers c) <= 126)%nat ->
  handlers c !! i = Some (pre ++ CallNext :: post)%list ->
  calls_next pre = 0%nat -> existsb aborts pre = false ->
  calls_next post = 0%nat -> existsb aborts post = false ->
  (forall j h, handlers c !! j = Some h -> j <> i ->
               calls_next h = 0%nat /\ existsb aborts h = false) ->
  exists n, forall fuel, (n <= fuel)%nat ->
    halted (Next fuel c) = true
    /\ panicked (Next fuel c) = false
    /\ trace (Next fuel c)
       = (flat_from 0 (take i (handlers c))
            ++ Enter (Z.of_nat i) :: op_marks pre
            ++ flat_from (S i) (drop (S i) (handlers c))
            ++ op_marks post)%list
    /\ index (ctx (Next fuel c)) = Z.of_nat (length (handlers c)) + 1.
Proof.
  intros Hidx Hlen Hi Hpre Hpre' Hpost Hpost' Hothers.
  set (hs := handlers c) in *. set (N := length hs) in *.
  assert (HiN : (i < N)%nat) by (by apply lookup_lt_Some in Hi).
  assert (Hreach : reach hs = N) by (apply reach_small; lia).
  assert (H8 : int8 (Z.of_nat N) = Z.of_nat N) by (apply int8_small; lia).
  (* the handlers before [i] *)
  destruct (loop_plain hs 0 i ltac:(lia)
              (fun j h Hj Hr => Hothers j h Hj ltac:(lia)) i 0%nat c [] [])
    as (n1 & c1 & Hrun1 & Hh1 & Hi1); [done|done|done|by rewrite Hidx|].
  rewrite drop_0 in Hrun1. simpl in Hrun1.
  (* [pre] *)
  destruct (run_ops_before_next pre (CallNext :: post)
              (with_index (Z.of_nat i) c1) [KNext]
              (flat_from 0 (take i hs) ++ [Enter (Z.of_nat i)])%list Hpre Hpre')
    as (c2 & Hrun2 & Hh2 & Hi2).
  (* the handlers after [i], inside the call of [Next] *)
  destruct (loop_plain hs (S i) N ltac:(lia)
              (fun j h Hj Hr => Hothers j h Hj ltac:(lia)) (N - S i) (S i) c2
              [KBody post; KNext]
              ((flat_from 0 (take i hs) ++ [Enter (Z.of_nat i)])
                 ++ op_marks pre)%list)
    as (n3 & c3 & Hrun3 & Hh3 & Hi3);
    [lia|done|rewrite Hh2; exact Hh1|rewrite Hi2; simpl; lia|].
  rewrite (take_ge hs N) in Hrun3 by apply Nat.le_refl.
  (* [post] *)
  destruct (run_body_no_next post (with_index (Z.of_nat N) c3) [KNext]
              (((flat_from 0 (take i hs) ++ [Enter (Z.of_nat i)])
                  ++ op_marks pre) ++ flat_from (S i) (drop (S i) hs))%list
              Hpost) as (c4 & Hrun4 & Hh4 & Hi4).
  rewrite Hpost' in Hi4. simpl in Hh4, Hi4.
  set (final := mkMachine (with_index (Z.of_nat N + 1) c4) []
     (((((flat_from 0 (take i hs) ++ [Enter (Z.of_nat i)])
           ++ op_marks pre) ++ flat_from (S i) (drop (S i) hs))
           ++ op_marks post))%list false).
  assert (Hend : run (n1 + (1 + (length pre + (1 + (n3 + (1
                        + (S (length post) + 1)))))))
                     (mkMachine c [KNext] [] false) = final).
  { rewrite run_add, Hrun1.
    change (run (1 + ?x) ?m) with (run x (step m)).
    rewrite (step_next_call c1 [] _ (Z.of_nat i) (pre ++ CallNext :: post)%list);
      [|done|lia|rewrite Hh1; fold N; lia|by rewrite Hh1, Nat2Z.id].
    rewrite run_add, Hrun2.
    change (run (1 + ?x) ?m) with (run x (step m)).
    rewrite step_call_next.
    rewrite run_add, Hrun3.
    change (run (1 + ?x) ?m) with (run x (step m)).
    rewrite (step_next_leave c3 _ _ (Z.of_nat N));
      [|done|lia|rewrite Hh3; fold N; lia].
    rewrite run_add, Hrun4.
    change (run 1 ?m) with (step m).
    rewrite (step_next_leave c4 [] _ (Z.of_nat N + 1));
      [done|rewrite Hi4; simpl; lia|lia|].
    rewrite Hh4. simpl. rewrite Hh3. fold N. lia. }
  eexists. intros fuel Hfuel. unfold Next.
  rewrite (run_ge _ fuel _ Hfuel) by (by rewrite Hend).
  rewrite Hend. unfold final, halted; simpl.
  repeat split. rewrite <- !app_assoc. done.
Qed.

(** A timing middleware around two handlers. *)
Lemma dispatch_around_next_witness :
  let c := chain [[Work "start"; CallNext; Work "stop"];
                  [Work "auth"]; [Work "business"]] in
  exists n, forall fuel, (n <= fuel)%nat ->
    trace (Next fuel c)
    = [Enter 0; Mark "start"; Enter 1; Mark "auth"; Enter 2; Mark "business";
       Mark "stop"]
    /\ index (ctx (Next fuel c)) = 4.
Proof.
  intros c.
  destruct (dispatch_around_next c 0 [Work "start"] [Work "stop"]) as [n Hn];
    try reflexivity.
  - vm_compute. lia.
  - intros [|[|[|j]]] h Hh Hj; simpl in Hh; inversion Hh; subst;
      solve [split; reflexivity | done].
  - exists n. intros fuel Hfuel.
    destruct (Hn fuel Hfuel) as (_ & _ & Ht & Hi). split; [exact Ht|exact Hi].
Defined.

(** ** Handlers that call [Next], to any depth *)

Lemma calls_sum_drop (hs : list HandlerFunc) (e : nat) (h : HandlerFunc) :
  hs !! e = Some h ->
  calls_sum (drop e hs) = (calls_next h + calls_sum (drop (S e) hs))%nat
  /\ todo (drop e hs)
     = (2 + length h + calls_next h + todo (drop (S e) hs))%nat.
Proof. intros Hh. by rewrite (drop_S hs h e Hh). Qed.

Lemma entered_upto (t : list Event) (e : nat) :
  entered t = Z.of_nat <$> seq 0 e ->
  entered (t ++ [Enter (Z.of_nat e)]) = Z.of_nat <$> seq 0 (S e).
Proof.
  intros Ht. rewrite entered_app, Ht, seq_S, fmap_app. done.
Qed.

Lemma last_below {A : Type} (x y : A) (k : list A) :
  last (x :: k) = Some y -> x <> y -> k <> [] /\ last k = Some y.
Proof. destruct k as [|z k]; simpl; [congruence|]. intros H _. by split. Qed.

Section Climbing.

Variable hs : list HandlerFunc.

Hypothesis nobody_aborts :
  forall j h, hs !! j = Some h -> existsb aborts h = false.

Lemma step_climbing (e : nat) (m : Machine) :
  climbing hs e m -> stack m <> [] ->
  exists e',
    climbing hs e' (step m)
    /\ S (cost (stack (step m)) + todo (drop e' hs))
       = (cost (stack m) + todo (drop e hs))%nat.
Proof using All.
  intros Hm Hk. destruct m as [c k t p].
  destruct Hm as (Hhs & Hp & He & Ht & Hclean & Hphase).
  unfold MaxInt8 in Hphase. simpl in Hhs, Hp, He, Ht, Hclean, Hphase, Hk.
  subst p. unfold climbing, MaxInt8.
  destruct k as [|[|[|op rest]] k]; [done| | |].
  - (* c.index++ and the loop test *)
    destruct Hphase as [(Hidx & Hlast & Hbound)|(-> & Hlo & Hhi)].
    + simpl in Hbound.
      destruct (decide (e < length hs)%nat) as [Hel|Hge].
      * destruct (lookup_lt_is_Some_2 hs e Hel) as [h Hh].
        destruct (calls_sum_drop hs e h Hh) as [Hcs Htd].
        rewrite (step_next_call c k t (Z.of_nat e) h);
          [|done|lia|rewrite Hhs, int8_small; lia|by rewrite Hhs, Nat2Z.id].
        exists (S e). simpl. rewrite (nobody_aborts e h Hh). simpl.
        repeat split; try done; try lia;
          [by apply entered_upto|].
        left. repeat split; [lia|exact Hlast|lia].
      * assert (e = length hs) as -> by lia.
        rewrite (step_next_leave c k t (Z.of_nat (length hs)));
          [|done|lia|rewrite Hhs, int8_small; lia].
        exists (length hs). simpl.
        repeat split; try done; lia.
    + simpl in Hhi.
      rewrite (step_next_leave c k t (index c + 1));
        [|lia|lia|rewrite Hhs, int8_small; lia].
      exists (length hs). simpl.
      repeat split; try done; lia.
  - (* a handler returns *)
    unfold step; simpl. exists e.
    repeat split; try done; try lia.
    destruct Hphase as [(Hidx & Hlast & Hbound)|(-> & Hlo & Hhi)].
    + left. simpl in Hbound.
      apply last_below in Hlast as [_ Hlast]; [|done].
      repeat split; [done|done|lia].
    + right. simpl in Hhi. repeat split; [done|lia].
  - (* a handler makes a call *)
    simpl in Hclean. apply andb_true_iff in Hclean as [Hop Hclean].
    apply negb_true_iff, orb_false_iff in Hop as [Hop Hrest].
    unfold step, exec_op; simpl stack; simpl ctx; simpl trace.
    exists e.
    assert (Hph : forall c' : Context, index c' = index c ->
      (index c' = Z.of_nat e - 1
       /\ last (KBody rest :: k) = Some KNext
       /\ (length hs + pending (KBody rest :: k) + calls_sum (drop e hs)
           <= 128)%nat)
      \/ (e = length hs
          /\ Z.of_nat (length hs) <= index c'
          /\ index c' + Z.of_nat (pending (KBody rest :: k)) <= 127)).
    { intros c' Hc'. rewrite Hc'.
      destruct Hphase as [(Hidx & Hlast & Hbound)|(-> & Hlo & Hhi)].
      - apply last_below in Hlast as [Hk' Hlast]; [|done].
        left. simpl in Hbound. simpl.
        repeat split; [done| |destruct (is_next op); lia].
        by destruct k.
      - right. simpl in Hhi. simpl.
        repeat split; [done|destruct (is_next op); lia]. }
    destruct op; simpl in Hop; try done; simpl;
      rewrite ?Hrest, ?entered_app, ?app_nil_r; simpl.
    + (* Next *)
      repeat split; try done; try lia.
      destruct Hphase as [(Hidx & Hlast & Hbound)|(-> & Hlo & Hhi)].
      * apply last_below in Hlast as [Hk' Hlast]; [|done].
        left. simpl in Hbound. repeat split; [done|by destruct k|lia].
      * right. simpl in Hhi. repeat split; [done|lia].
    + repeat split; try done; try lia. by apply Hph.
    + repeat split; try done; try lia. by apply Hph.
    + repeat split; try done; try lia. by apply Hph.
Qed.

Lemma run_climbing (n : nat) :
  forall e m,
  (cost (stack m) + todo (drop e hs))%nat = n ->
  climbing hs e m ->
  stack (run n m) = []
  /\ panicked (run n m) = false
  /\ entered (trace (run n m)) = Z.of_nat <$> seq 0 (length hs).
Proof using All.
  induction n as [|n IH]; intros e m Hn Hm.
  - destruct Hm as (Hhs & Hp & He & Ht & _ & Hphase). simpl.
    assert (Hk : stack m = []).
    { destruct (stack m) as [|[|rest] k]; simpl in Hn; [done|lia|lia]. }
    rewrite Hk in *. simpl in Hn.
    destruct Hphase as [(_ & Hlast & _)|(-> & _)]; [done|].
    done.
  - assert (Hk : stack m <> []).
    { intros Hk. rewrite Hk in Hn. simpl in Hn.
      destruct Hm as (_ & _ & He & _ & _ & Hphase). rewrite Hk in Hphase.
      destruct Hphase as [(_ & Hlast & _)|(-> & _)]; [done|].
      rewrite drop_all in Hn. done. }
    destruct (step_climbing e m Hm Hk) as (e' & Hm' & Hcost).
    simpl. apply (IH e' (step m)); [lia|done].
Qed.

End Climbing.

(** X8. In a chain where no handler aborts, however the handlers call
    [Next] (none, once, several times, from inside one another), one [Next]
    from the reset index comes to an end having called every handler once,
    in the order of the list, provided the handlers and their calls of
    [Next] together number at most 127, so that the [int8] index does not
    overflow. *)
Theorem dispatch_each_handler_once (c : Context) (fuel : nat) :
  index c = -1 ->
  (forall j h, handlers c !! j = Some h -> existsb aborts h = false) ->
  (length (handlers c) + calls_sum (handlers c) <= 127)%nat ->
  (1 + todo (handlers c) <= fuel)%nat ->
  halted (Next fuel c) = true
  /\ panicked (Next fuel c) = false
  /\ entered (trace (Next fuel c))
     = Z.of_nat <$> seq 0 (length (handlers c)).
Proof.
  intros Hidx Hclean Hbound Hfuel.
  assert (Hm0 : climbing (handlers c) 0 (mkMachine c [KNext] [] false)).
  { unfold climbing; simpl. rewrite Hidx.
    repeat split; try done; try lia.
    left. repeat split; try done. rewrite drop_0. lia. }
  set (m0 := mkMachine c [KNext] [] false) in *.
  destruct (run_climbing (handlers c) Hclean (1 + todo (handlers c)) 0%nat m0
              eq_refl Hm0) as (H1 & H2 & H3).
  unfold Next. fold m0.
  rewrite (run_ge _ fuel m0 Hfuel H1).
  unfold halted. by rewrite H1, H2, H3.
Qed.

(** Three handlers, the first two of which call [Next]; the second calls it
    twice. *)
Lemma dispatch_each_handler_once_witness :
  let c := chain [[Work "a"; CallNext; Work "a'"];
                  [CallNext; Work "b"; CallNext];
                  [Work "c"]] in
  halted (Next 30 c) = true
  /\ panicked (Next 30 c) = false
  /\ entered (trace (Next 30 c)) = Z.of_nat <$> seq 0 3.
Proof.
  intros c. apply (dispatch_each_handler_once c 30).
  - reflexivity.
  - intros [|[|[|j]]] h Hh; simpl in Hh; inversion Hh; reflexivity.
  - vm_compute. lia.
  - vm_compute. lia.
Defined.

(** ** After [Abort], continued *)

Lemma run_unwinding (n : nat) :
  forall m, unwinding m -> unwinding (run n m).
Proof.
  induction n as [|n IH]; intros m Hm; [done|]. simpl. apply IH.
  destruct (stack m) as [|f k] eqn:Hk.
  - unfold step. by rewrite Hk.
  - apply step_unwinding; [done|]. by rewrite Hk.
Qed.

(** X9. After [Abort] on a context with at most 64 handlers, [IsAborted]
    answers true at every later moment of the dispatch, as long as no more
    than 64 increments of the index are still to come. *)
Theorem IsAborted_stays_true (m : Machine) (fuel : nat) :
  (length (handlers (ctx m)) <= 64)%nat ->
  (pending (stack m) <= 64)%nat ->
  IsAborted
    (ctx (run fuel (mkMachine (Abort (ctx m)) (stack m) (trace m) false)))
  = true.
Proof.
  intros Hlen Hpend.
  assert (Hm0 : unwinding
                  (mkMachine (Abort (ctx m)) (stack m) (trace m) false)).
  { unfold unwinding; simpl. unfold _abortIndex, MaxInt8.
    change (127 / 2) with 63. rewrite int8_small by lia.
    repeat split; try done; lia. }
  destruct (run_unwinding fuel _ Hm0) as (_ & _ & Hlo & _).
  unfold IsAborted. by apply Z.leb_le.
Qed.

Lemma IsAborted_stays_true_witness :
  let m := mkMachine (chain [[CallAbort; CallNext; Work "w"]; [Work "x"]])
                     [KBody [CallNext; Work "w"]; KNext] [Enter 0] false in
  IsAborted
    (ctx (run 3 (mkMachine (Abort (ctx m)) (stack m) (trace m) false)))
  = true.
Proof.
  intros m. apply (IsAborted_stays_true m 3); vm_compute; lia.
Defined.

(** Calls of [Next] one after the other on an aborted context only move
    the index, while it fits. *)
Lemma run_next_calls (n : nat) :
  forall (c : Context) (k : list Frame) (t : list Event),
  int8 (Z.of_nat (length (handlers c))) <= 64 ->
  63 <= index c -> index c + Z.of_nat n <= 127 ->
  exists c',
    run n (mkMachine c (replicate n KNext ++ k)%list t false)
    = mkMachine c' k t false
    /\ handlers c' = handlers c
    /\ index c' = index c + Z.of_nat n.
Proof.
  induction n as [|n IH]; intros c k t Hlen Hlo Hhi.
  - exists c. simpl. repeat split. lia.
  - simpl replicate. simpl app.
    change (run (S n) ?m) with (run n (step m)).
    rewrite (step_next_leave c _ t (index c + 1)); [|lia|lia|lia].
    destruct (IH (with_index (index c + 1) c) k t) as (c' & Hrun & Hh & Hi);
      [done|simpl; lia|simpl; lia|].
    exists c'. rewrite Hrun. simpl in Hh, Hi. repeat split; [done|lia].
Qed.

(** X10. The sentinel is not absorbing: on a context with at most 64
    handlers, the 65th [Next] called after [Abort] overflows the [int8]
    index to -128, passes the loop test and panics on [c.handlers[-128]];
    no handler has been called by then. *)
Theorem next_overflows_after_abort (c : Context) (t : list Event) :
  (length (handlers c) <= 64)%nat ->
  let m := run 65 (mkMachine (Abort c) (replicate 65 KNext) t false) in
  panicked m = true
  /\ trace m = t
  /\ index (ctx m) = -128
  /\ panicked (run 64 (mkMachine (Abort c) (replicate 65 KNext) t false))
     = false.
Proof.
  intros Hlen.
  destruct (run_next_calls 64 (Abort c) [KNext] t) as (c' & Hrun & Hh & Hi).
  { simpl. rewrite int8_small; lia. }
  { simpl. unfold _abortIndex, MaxInt8. change (127 / 2) with 63. lia. }
  { simpl. unfold _abortIndex, MaxInt8. change (127 / 2) with 63. lia. }
  change (replicate 65 KNext) with (replicate 64 KNext ++ [KNext])%list.
  assert (Hi' : index c' = 127) by (rewrite Hi; reflexivity).
  assert (Hh' : handlers c' = handlers c) by (rewrite Hh; reflexivity).
  assert (Hfin : run 65 (mkMachine (Abort c)
                           (replicate 64 KNext ++ [KNext])%list t false)
                 = mkMachine (with_index (-128) c') [] t true).
  { change 65%nat with (64 + 1)%nat. rewrite run_add, Hrun. simpl.
    unfold step; simpl. rewrite Hi', Hh'.
    change (int8 (127 + 1)) with (-128).
    rewrite int8_small by lia.
    by destruct (Z.ltb_spec (-128) (Z.of_nat (length (handlers c)))); [|lia]. }
  cbv zeta. rewrite Hfin, Hrun. done.
Qed.

Lemma next_overflows_after_abort_witness :
  panicked (run 65 (mkMachine (Abort (chain [[Work "h"]]))
                              (replicate 65 KNext) [] false)) = true.
Proof.
  destruct (next_overflows_after_abort (chain [[Work "h"]]) []) as [H _].
  - vm_compute. lia.
  - exact H.
Defined.

(** ** The key/value store, continued *)

(** X1. What [Set] stores, [Get] finds, under the key it was stored and
    with its type: the accessor of that type returns it; [Set] allocates
    the map when there is none, and changes no other key and no other
    field. *)
Theorem Get_after_Set (key : string) (v : GoVal) (c : Context) :
  Get key (Set_ key v c) = (v, true)
  /\ Keys (Set_ key v c) <> None
  /\ (forall key', key' <> key -> Get key' (Set_ key v c) = Get key' c)
  /\ (forall s, GetString key (Set_ key (VString s) c) = s)
  /\ (forall b, GetBool key (Set_ key (VBool b) c) = b)
  /\ (forall i, GetInt key (Set_ key (VInt i) c) = i)
  /\ (forall i, GetInt64 key (Set_ key (VInt64 i) c) = i)
  /\ (forall u, GetUint key (Set_ key (VUint u) c) = u)
  /\ (forall u, GetUint64 key (Set_ key (VUint64 u) c) = u)
  /\ (forall f, GetFloat64 key (Set_ key (VFloat64 f) c) = f)
  /\ with_Keys (Keys c) (Set_ key v c) = c.
Proof.
  unfold GetString, GetBool, GetInt, GetInt64, GetUint, GetUint64, GetFloat64.
  split; [by rewrite Get_held, held_Set|].
  split; [done|].
  split; [intros key' Hne; by rewrite !Get_held, held_Set_other|].
  repeat split; intros; rewrite ?Get_held, ?held_Set; try done.
  by destruct c.
Qed.

(** X2. Of two [Set] on one key the later wins, and [Set] on different keys
    can be done in either order. *)
Theorem Set_twice (k1 k2 : string) (v1 v2 : GoVal) (c : Context) :
  Set_ k1 v2 (Set_ k1 v1 c) = Set_ k1 v2 c
  /\ (k1 <> k2 ->
      Set_ k1 v1 (Set_ k2 v2 c) = Set_ k2 v2 (Set_ k1 v1 c)).
Proof.
  unfold Set_, with_Keys; simpl. split.
  - by rewrite insert_insert_eq.
  - intros Hne. by rewrite insert_insert_ne.
Qed.

(** X3. Keys do not survive [reset]: the first [Set] on a reset context
    leaves a map with that one key, whatever the context held before. *)
Theorem Set_after_reset (key : string) (v : GoVal) (c : Context) :
  Keys (Set_ key v (reset c)) = Some {[ key := v ]}
  /\ (forall key', key' <> key ->
        Get key' (Set_ key v (reset c)) = (VNil, false)).
Proof.
  split; [by unfold Set_; simpl; rewrite insert_empty|].
  intros key' Hne. unfold Get, Set_; simpl.
  by rewrite lookup_insert_ne.
Qed.

(** ** The header of the business code *)

(** X14. The value [writeStatusCode] puts in the header reads back as the
    code: the call is added last, under ["kratos-status-code"], with a
    decimal text whose value is the code. *)
Theorem status_header_reads_back (w : ResponseWriter) (ecode : Z) :
  exists s,
    writeStatusCode w ecode = (w ++ [HeaderSet "kratos-status-code" s])%list
    /\ option_map Z.of_int (NilZero.int_of_string s) = Some ecode.
Proof.
  exists (strconv.FormatInt ecode). split; [done|].
  apply FormatInt_reads_back.
Qed.

(** ** Rendering, continued *)

Section MoreResponses.

Context {ext : Externals}.



(** X13. The JSONP wrapper. When the status allows a body, [Render] writes
    the body alone if the escaped [callback] parameter is empty; otherwise
    it writes the callback name and an opening parenthesis before the body,
    and the closing parenthesis after it only if the strategy reported no
    error. An error of the strategy is stored in [c.Error] as it is, an
    error of the last write wrapped with its stack. *)
Theorem Render_jsonp (code : Z) (r : render) (c : Context) :
  bodyAllowedForStatus code = true ->
  let cb := JSEscapeString (Values_Get (Form (Request_ c)) "callback") in
  let head := (Writer c ++ WriteContentType r
                 :: (if 0 <? code then [WriteHeader code] else []))%list in
  let opening := if String.eqb cb "" then []
                 else [Write cb; Write _openParen] in
  let result := Render_result r (head ++ opening)%list in
  Writer (Render code r c)
  = (head ++ opening ++ RenderTo r
       :: (if String.eqb cb "" then []
           else match result with
                | Some _ => []
                | None => [Write _closeParen]
                end))%list
  /\ Error (Render code r c)
     = match result with
       | Some e => Some e
       | None =>
           if String.eqb cb "" then Error c
           else match Write_result _closeParen
                        (head ++ opening ++ [RenderTo r])%list with
                | Some e => Some (WithStack e)
                | None => Error c
                end
       end.
Proof.
  intros Hbody cb head opening result.
  unfold Render. cbv zeta. rewrite Hbody.
  set (c2 := if 0 <? code then Status code (call (WriteContentType r) c)
             else call (WriteContentType r) c).
  assert (Hf : Form (Request_ c2) = Form (Request_ c))
    by (unfold c2; by destruct (0 <? code)).
  assert (Hw : Writer c2 = head).
  { unfold head, c2. destruct (0 <? code); simpl; [|done].
    by rewrite <- app_assoc. }
  assert (He : Error c2 = Error c) by (unfold c2; by destruct (0 <? code)).
  rewrite Hf. fold cb. unfold result, opening.
  clearbody c2. clear Hf.
  destruct (String.eqb cb "") eqn:Hcb; simpl.
  - rewrite app_nil_r, Hw. destruct (Render_result r head); simpl.
    + by rewrite ?Hw.
    + by rewrite ?Hw, ?He.
  - rewrite Hw, <- !app_assoc. simpl.
    destruct (Render_result r _); simpl.
    + by rewrite ?Hw, <- ?app_assoc.
    + rewrite ?Hw, <- ?app_assoc. simpl.
      destruct (Write_result _ _); simpl; rewrite ?Hw, <- ?app_assoc; simpl;
        rewrite <- ?app_assoc; simpl; rewrite ?He; done.
Qed.

(** X11. A failed [Bind] stops the chain: on a context with at most 64
    handlers, after [BindWith] has reported an error no handler is called
    any more, neither by the loops of [Next] in progress nor by a later
    [Next]. *)
Theorem failed_bind_stops_dispatch (b : Binding) (c : Context)
        (k : list Frame) (t : list Event) (fuel : nat) :
  b (Request_ c) <> None ->
  (length (handlers c) <= 64)%nat ->
  entered (trace (run fuel (mkMachine (fst (BindWith b c)) k t false)))
  = entered t.
Proof.
  intros Hb Hlen.
  apply (run_past_abort fuel (mkMachine (fst (BindWith b c)) k t false)).
  right. simpl. unfold BindWith, mustBindWith.
  destruct (b (Request_ c)) as [err|]; [|done]. simpl.
  match goal with
  | |- context [Render ?code ?r ?c1] =>
      destruct (Render_frame code r c1) as (_ & _ & Hh & _)
  end.
  rewrite Hh. simpl. unfold _abortIndex, MaxInt8. change (127 / 2) with 63.
  split; [exact Hlen|lia].
Qed.

(** X17. [Redirect] hands every status to the redirect strategy, also
    those that allow no body: it passes -1 to [Render], which writes no
    status of its own and always calls the strategy. *)
Theorem Redirect_always_renders (code : Z) (location : string) (c : Context) :
  let r := render_Redirect code location (Request_ c) in
  exists body,
    Writer (Redirect code location c)
    = (Writer c ++ WriteContentType r :: body)%list
    /\ forallb is_body_call body = true
    /\ In (RenderTo r) body.
Proof.
  intros r. unfold Redirect. fold r.
  destruct (Render_calls (-1) r c) as (body & Hw & Hb & Hin).
  exists body. by rewrite Hw.
Qed.

(** X18. A map handed to [JSONMap] twice keeps the message of the first
    call: the first call stores its business message in the map, and the
    second, finding a message there, replaces the code only. *)
Theorem JSONMap_reused_map (l : positive) (m : gmap string GoVal) (h : Heap)
        (err1 err2 : option error) (c : Context) :
  h !! l = Some m ->
  m !! "message" = None ->
  exists c1 h1 c2 h2 m2,
    JSONMap (Some l) err1 (c, h) = Returned (c1, h1)
    /\ JSONMap (Some l) err2 (c1, h1) = Returned (c2, h2)
    /\ h2 !! l = Some m2
    /\ m2 !! "code" = Some (VInt (Code (Cause err2)))
    /\ m2 !! "message" = Some (VString (Message (Cause err1)))
    /\ In (RenderTo (render_MapJSON m2)) (Writer c2).
Proof.
  intros Hl Hm.
  unfold JSONMap at 1. simpl. rewrite Hl. simpl.
  rewrite lookup_insert_ne, Hm by done.
  eexists _, _. unfold JSONMap. simpl. rewrite lookup_insert_eq. simpl.
  rewrite lookup_insert_ne, lookup_insert_eq by done.
  eexists _, _, _. split; [reflexivity|]. split; [reflexivity|].
  rewrite !lookup_insert_eq.
  rewrite lookup_insert_ne, lookup_insert_eq by done.
  repeat split.
  match goal with
  | |- In (RenderTo ?r) (Writer (Render ?code ?r ?c0)) =>
      destruct (Render_calls code r c0) as (body & -> & _ & Hb)
  end.
  simpl in Hb. apply in_or_app. right. right. right. exact Hb.
Qed.

End MoreResponses.


Lemma Render_jsonp_witness :
  Writer (Render 200 (render_JSON 0 "0" VNil)
            (mkContext None (mkRequest "GET" ∅ {[ "callback" := ["foo"] ]})
                       [] (-1) [] None None "" "" 0 "" (mkParams [] 0)))
  = [WriteContentType (render_JSON 0 "0" VNil); WriteHeader 200;
     Write "foo"; Write "("; RenderTo (render_JSON 0 "0" VNil); Write ")"].
Proof.
  destruct (Render_jsonp 200 (render_JSON 0 "0" VNil)
              (mkContext None (mkRequest "GET" ∅ {[ "callback" := ["foo"] ]})
                         [] (-1) [] None None "" "" 0 "" (mkParams [] 0)))
    as [H _]; [reflexivity|].
  rewrite H. vm_compute. reflexivity.
Defined.

Lemma failed_bind_stops_dispatch_witness :
  entered (trace (run 20
    (mkMachine (fst (BindWith (fun _ => Some (ErrorString "bad body"))
                              (with_index 0 (chain [[Work "bind"];
                                                    [Work "never"]]))))
               [KBody [Work "after bind"]; KNext] [Enter 0] false)))
  = [0].
Proof.
  apply (failed_bind_stops_dispatch
           (fun _ => Some (ErrorString "bad body"))
           (with_index 0 (chain [[Work "bind"]; [Work "never"]]))).
  - discriminate.
  - vm_compute. lia.
Defined.

(** ** The parts of a split string *)

Lemma append_length (x y : string) :
  String.length (x +:+ y) = (String.length x + String.length y)%nat.
Proof.
  induction x as [|a x IH]; [done|]. rewrite append_cons. simpl. by rewrite IH.
Qed.

Lemma Cut_after_shorter (s sep : string) :
  sep <> "" -> strings.Contains s sep = true ->
  (String.length (strings.Cut_after s sep) < String.length s)%nat.
Proof.
  intros Hsep Hc. rewrite (Cut_join s sep Hc) at 2.
  rewrite !append_length. destruct sep; [done|]. simpl. lia.
Qed.

Lemma Split_parts_fuel (sep : string) (n : nat) :
  sep <> "" ->
  forall s, (String.length s <= n)%nat ->
  strings.Join (strings.Split s sep) sep = s
  /\ Forall (fun p => strings.Contains p sep = false) (strings.Split s sep).
Proof.
  intros Hsep. induction n as [|n IH]; intros s Hs.
  - destruct s; [|simpl in Hs; lia].
    rewrite Split_cut by done.
    assert (Hc : strings.Contains "" sep = false) by (by destruct sep).
    rewrite Hc. split; [done|]. by constructor.
  - rewrite Split_cut by done.
    destruct (strings.Contains s sep) eqn:Hc.
    + pose proof (Cut_after_shorter s sep Hsep Hc) as Hlt.
      destruct (IH (strings.Cut_after s sep)) as [Hj Hf]; [lia|].
      split.
      * assert (Hne : strings.Split (strings.Cut_after s sep) sep <> [])
          by apply split_scan_nonempty.
        destruct (strings.Split (strings.Cut_after s sep) sep) as [|p ps]
          eqn:Hsp; [done|].
        change (strings.Join (?x :: p :: ps) sep)
          with (x +:+ sep +:+ strings.Join (p :: ps) sep).
        rewrite Hj. symmetry. by apply Cut_join.
      * constructor; [by apply Cut_before_clean|done].
    + split; [done|]. by constructor.
Qed.

(** X15. The parts [JSON] and [RemoteIP] get from [strings.Split] carry the
    whole string: there is at least one, joined with the separator they
    give the string back, and none of them contains the separator. *)
Theorem Split_parts (s sep : string) :
  sep <> "" ->
  strings.Split s sep <> []
  /\ strings.Join (strings.Split s sep) sep = s
  /\ Forall (fun p => strings.Contains p sep = false) (strings.Split s sep).
Proof.
  intros Hsep. split; [apply split_scan_nonempty|].
  by apply (Split_parts_fuel sep (String.length s)).
Qed.

Lemma Split_parts_witness :
  strings.Join (strings.Split "4001||Invalid input||x" "||") "||"
  = "4001||Invalid input||x".
Proof.
  destruct (Split_parts "4001||Invalid input||x" "||") as (_ & H & _).
  - discriminate.
  - exact H.
Defined.

Lemma JSONMap_reused_map_witness :
  let h : Heap := {[ 1%positive := {[ "items" := VInt 3 ]} ]} in
  let err1 := Some (CodesError (mkCodes "-404" (-404) "not found")) in
  exists c1 h1 c2 h2 m2,
    JSONMap (Some 1%positive) err1 (idle, h) = Returned (c1, h1)
    /\ JSONMap (Some 1%positive) None (c1, h1) = Returned (c2, h2)
    /\ h2 !! 1%positive = Some m2
    /\ m2 !! "code" = Some (VInt (Code (Cause None)))
    /\ m2 !! "message" = Some (VString (Message (Cause err1)))
    /\ In (RenderTo (render_MapJSON m2)) (Writer c2).
Proof.
  intros h err1.
  apply (JSONMap_reused_map 1%positive {[ "items" := VInt 3 ]} h err1 None idle);
    reflexivity.
Defined.
